(** * Astral: position pipeline, closest-object detector, camera
      transitions and trail level of detail

    A shallow embedding of the TypeScript sources of the satellite viewer:

    - [Store]            the zustand store [useSatelliteStore]
                         (selection, compare mode, [findClosestSatellite],
                         [getRealtimePosition]);
    - [Satellites]       the per-frame propagation loop of [Satellites.tsx]
                         (frame counter, local position buffer, throttled
                         copy into the store);
    - [CameraController] the transition branch of the camera's [useFrame];
    - [SatelliteTrails]  the level-of-detail rule for the trail length.

    Beyond these: the rest of the store and its filter ([StoreRest]), the
    click handlers of the panels ([SatelliteList], [Handlers]), the clock
    ([TimeControls]), the antenna pointing ([Tracking]), the camera
    presets and the effect that starts a transition ([CameraPresets]),
    the samples of the orbit trail ([TrailSamples]), the model detail
    ([SatelliteLOD]), the motion trails ([MotionTrails]) and the catalog
    service of the server ([TleService]).

    Numbers.  A JavaScript [number] is read as an exact number: a real
    ([R]) where the code takes square roots or powers, a rational ([Q])
    where it only adds, multiplies, divides and rounds down, and a natural
    number for the frame counter.  Rounding, overflow and NaN of binary64
    are outside this model.  [Infinity], which the closest-object scan uses
    as its initial minimum, is represented explicitly. *)

From Stdlib Require Import Reals ZArith QArith Qround Qabs Psatz.
From stdpp Require Import gmap strings list fin_maps.

(** ** JavaScript truthiness of an id

    [string | null] values are tested with [!id] and [if (id)]: [null] and
    the empty string are falsy, every other string is truthy. *)

Definition truthy (o : option string) : bool :=
  match o with
  | None => false
  | Some s => negb (String.eqb s EmptyString)
  end.

(** ** Comparisons of numbers

    [<], [>=] and [===] on numbers are decided by the order of the reals. *)

#[global] Instance Rlt_decision (a b : R) : Decision (a < b)%R := Rlt_dec a b.
#[global] Instance Rle_decision (a b : R) : Decision (a <= b)%R := Rle_dec a b.
#[global] Instance Req_decision : EqDecision R := Req_dec_T.

(** ** The store: [useSatelliteStore] *)

Module Store.

Record SatelliteInfo : Type := {
  name : string;
  noradId : string;
  line1 : string;
  line2 : string;
  category : option string;
  operator : option string;
  launchDate : option string
}.

Record SatellitePosition : Type := {
  x : R;
  y : R;
  z : R;
  lat : R;
  lon : R;
  alt : R;
  velocity : R
}.

Abbreviation PositionMap := (gmap string SatellitePosition).

(** [realtimePositionGetter] is a closure returning the live buffer of the
    [Satellites] component; [currentTime] is a [Date], kept as its epoch
    milliseconds. *)
Record SatelliteStore : Type := {
  satellites : list SatelliteInfo;
  satellitePositions : PositionMap;
  selectedSatellite : option string;
  hoveredSatellite : option string;
  followedSatellite : option string;
  visitedObject : option string;
  closestSatelliteMode : bool;
  closestSatelliteId : option string;
  closestSatelliteDistance : option R;
  currentTime : Z;
  timeSpeed : R;
  isPaused : bool;
  searchQuery : string;
  filterCategory : option string;
  filterOperator : option string;
  showTrails : bool;
  showLabels : bool;
  trailLength : R;
  realtimePositionGetter : option (unit → PositionMap)
}.

(** The initial state of the store, at a given creation time. *)
Definition initialStore (now : Z) : SatelliteStore := {|
  satellites := [];
  satellitePositions := ∅;
  selectedSatellite := None;
  hoveredSatellite := None;
  followedSatellite := None;
  visitedObject := None;
  closestSatelliteMode := false;
  closestSatelliteId := None;
  closestSatelliteDistance := None;
  currentTime := now;
  timeSpeed := 1%R;
  isPaused := false;
  searchQuery := EmptyString;
  filterCategory := None;
  filterOperator := None;
  showTrails := true;
  showLabels := false;
  trailLength := 100%R;
  realtimePositionGetter := None
|}.

(** *** Partial updates ([set({...})])

    zustand's [set] merges the given fields into the state; each setter
    below rebuilds the record with exactly the fields its [set] names. *)

Definition setSatellites (sats : list SatelliteInfo) (st : SatelliteStore)
  : SatelliteStore := {|
  satellites := sats;
  satellitePositions := satellitePositions st;
  selectedSatellite := selectedSatellite st;
  hoveredSatellite := hoveredSatellite st;
  followedSatellite := followedSatellite st;
  visitedObject := visitedObject st;
  closestSatelliteMode := closestSatelliteMode st;
  closestSatelliteId := closestSatelliteId st;
  closestSatelliteDistance := closestSatelliteDistance st;
  currentTime := currentTime st;
  timeSpeed := timeSpeed st;
  isPaused := isPaused st;
  searchQuery := searchQuery st;
  filterCategory := filterCategory st;
  filterOperator := filterOperator st;
  showTrails := showTrails st;
  showLabels := showLabels st;
  trailLength := trailLength st;
  realtimePositionGetter := realtimePositionGetter st
|}.

Definition setPositions (m : PositionMap) (st : SatelliteStore)
  : SatelliteStore := {|
  satellites := satellites st;
  satellitePositions := m;
  selectedSatellite := selectedSatellite st;
  hoveredSatellite := hoveredSatellite st;
  followedSatellite := followedSatellite st;
  visitedObject := visitedObject st;
  closestSatelliteMode := closestSatelliteMode st;
  closestSatelliteId := closestSatelliteId st;
  closestSatelliteDistance := closestSatelliteDistance st;
  currentTime := currentTime st;
  timeSpeed := timeSpeed st;
  isPaused := isPaused st;
  searchQuery := searchQuery st;
  filterCategory := filterCategory st;
  filterOperator := filterOperator st;
  showTrails := showTrails st;
  showLabels := showLabels st;
  trailLength := trailLength st;
  realtimePositionGetter := realtimePositionGetter st
|}.

(** [setSatellitePosition]: copy the map, set one key, store the copy. *)
Definition setSatellitePosition (id : string) (position : SatellitePosition)
    (st : SatelliteStore) : SatelliteStore :=
  let newPositions := <[id := position]> (satellitePositions st) in
  setPositions newPositions st.

(** The three compare-mode fields together with the selection; every
    [set] of the compare functions names a subset of these four. *)
Definition setCompareFields (sel : option string) (mode : bool)
    (cid : option string) (cdist : option R) (st : SatelliteStore)
  : SatelliteStore := {|
  satellites := satellites st;
  satellitePositions := satellitePositions st;
  selectedSatellite := sel;
  hoveredSatellite := hoveredSatellite st;
  followedSatellite := followedSatellite st;
  visitedObject := visitedObject st;
  closestSatelliteMode := mode;
  closestSatelliteId := cid;
  closestSatelliteDistance := cdist;
  currentTime := currentTime st;
  timeSpeed := timeSpeed st;
  isPaused := isPaused st;
  searchQuery := searchQuery st;
  filterCategory := filterCategory st;
  filterOperator := filterOperator st;
  showTrails := showTrails st;
  showLabels := showLabels st;
  trailLength := trailLength st;
  realtimePositionGetter := realtimePositionGetter st
|}.

Definition setSelectedSatellite (id : option string) (st : SatelliteStore)
  : SatelliteStore :=
  setCompareFields id false None None st.

Definition setVisitedObject (object : option string) (st : SatelliteStore)
  : SatelliteStore := {|
  satellites := satellites st;
  satellitePositions := satellitePositions st;
  selectedSatellite := selectedSatellite st;
  hoveredSatellite := hoveredSatellite st;
  followedSatellite := followedSatellite st;
  visitedObject := object;
  closestSatelliteMode := closestSatelliteMode st;
  closestSatelliteId := closestSatelliteId st;
  closestSatelliteDistance := closestSatelliteDistance st;
  currentTime := currentTime st;
  timeSpeed := timeSpeed st;
  isPaused := isPaused st;
  searchQuery := searchQuery st;
  filterCategory := filterCategory st;
  filterOperator := filterOperator st;
  showTrails := showTrails st;
  showLabels := showLabels st;
  trailLength := trailLength st;
  realtimePositionGetter := realtimePositionGetter st
|}.

Definition setRealtimePositionGetter (getter : option (unit → PositionMap))
    (st : SatelliteStore) : SatelliteStore := {|
  satellites := satellites st;
  satellitePositions := satellitePositions st;
  selectedSatellite := selectedSatellite st;
  hoveredSatellite := hoveredSatellite st;
  followedSatellite := followedSatellite st;
  visitedObject := visitedObject st;
  closestSatelliteMode := closestSatelliteMode st;
  closestSatelliteId := closestSatelliteId st;
  closestSatelliteDistance := closestSatelliteDistance st;
  currentTime := currentTime st;
  timeSpeed := timeSpeed st;
  isPaused := isPaused st;
  searchQuery := searchQuery st;
  filterCategory := filterCategory st;
  filterOperator := filterOperator st;
  showTrails := showTrails st;
  showLabels := showLabels st;
  trailLength := trailLength st;
  realtimePositionGetter := getter
|}.

Definition disableClosestSatelliteMode (st : SatelliteStore) : SatelliteStore :=
  setCompareFields (selectedSatellite st) false None None st.

Definition setClosestSatellite (satelliteId : option string)
    (distance : option R) (st : SatelliteStore) : SatelliteStore :=
  setCompareFields (selectedSatellite st) (closestSatelliteMode st)
    satelliteId distance st.

(** *** [getRealtimePosition]

    [realtimePositions.get(noradId) || null]: a stored position is an
    object, hence truthy, so the result is the lookup itself. *)
Definition getRealtimePosition (st : SatelliteStore) (id : string)
  : option SatellitePosition :=
  match realtimePositionGetter st with
  | Some getter =>
      let realtimePositions := getter () in
      realtimePositions !! id
  | None => satellitePositions st !! id
  end.

(** *** [findClosestSatellite]

    The scan keeps [closestId] and [closestDistance], which start as
    [null] and [Infinity] and are always assigned together: the pair is
    carried as an option, [None] standing for ([null], [Infinity]). *)

Definition distance3 (pos selectedPos : SatellitePosition) : R :=
  let dx := (x pos - x selectedPos)%R in
  let dy := (y pos - y selectedPos)%R in
  let dz := (z pos - z selectedPos)%R in
  sqrt (dx * dx + dy * dy + dz * dz).

(** [distance < closestDistance] *)
Definition closer (distance : R) (closest : option (string * R)) : bool :=
  match closest with
  | None => true
  | Some (_, closestDistance) => bool_decide (distance < closestDistance)%R
  end.

(** The body of [state.satellites.forEach((sat) => {...})]. *)
Definition scanStep (st : SatelliteStore) (selectedId : string)
    (selectedPos : SatellitePosition)
    (closest : option (string * R)) (sat : SatelliteInfo)
  : option (string * R) :=
  let id := noradId sat in
  if String.eqb id selectedId then closest
  else
    match getRealtimePosition st id with
    | None => closest
    | Some pos =>
        let distance := distance3 pos selectedPos in
        if closer distance closest then Some (id, distance) else closest
    end.

Definition scan (st : SatelliteStore) (selectedId : string)
    (selectedPos : SatellitePosition) : option (string * R) :=
  fold_left (scanStep st selectedId selectedPos) (satellites st) None.

Definition findClosestSatellite (st : SatelliteStore) : SatelliteStore :=
  match selectedSatellite st with
  | None => st
  | Some selectedId =>
      if negb (truthy (Some selectedId)) then st
      else
        match getRealtimePosition st selectedId with
        | None => st
        | Some selectedPos =>
            match realtimePositionGetter st with
            | None => st
            | Some _ =>
                match scan st selectedId selectedPos with
                | Some (closestId, closestDistance) =>
                    if truthy (Some closestId)
                    then setClosestSatellite (Some closestId)
                           (Some closestDistance) st
                    else st
                | None => st
                end
            end
        end
  end.

(** *** [enableClosestSatelliteMode]

    The function schedules [state.findClosestSatellite()] with
    [setTimeout(..., 100)].  A scheduled callback is returned as data and
    run later by [fire] on whatever the store holds then:
    [findClosestSatellite] starts with [get()]. *)
Inductive Deferred : Type :=
| CallFindClosestSatellite.

Definition enableClosestSatelliteMode (st : SatelliteStore)
  : SatelliteStore * list Deferred :=
  if negb (truthy (selectedSatellite st)) then (st, [])
  else
    (setCompareFields (selectedSatellite st) true
       (closestSatelliteId st) (closestSatelliteDistance st) st,
     [CallFindClosestSatellite]).

Definition fire (d : Deferred) (st : SatelliteStore) : SatelliteStore :=
  match d with
  | CallFindClosestSatellite => findClosestSatellite st
  end.

(** *** What the scan is expected to compute

    A candidate is a catalog entry other than the selected satellite whose
    position is known. *)
Definition candidate (st : SatelliteStore) (selectedId : string)
    (sat : SatelliteInfo) (q : SatellitePosition) : Prop :=
  noradId sat ≠ selectedId ∧ getRealtimePosition st (noradId sat) = Some q.

(** The running minimum after a prefix [l] of the catalog: nothing while
    the prefix has no candidate; otherwise the entry at some index [i], at
    a distance no candidate of the prefix beats and every candidate before
    [i] exceeds. *)
Definition scanned (st : SatelliteStore) (selectedId : string)
    (selectedPos : SatellitePosition)
    (l : list SatelliteInfo) (acc : option (string * R)) : Prop :=
  match acc with
  | None => ∀ sat q, sat ∈ l → ¬ candidate st selectedId sat q
  | Some (id, d) =>
      ∃ i sat q,
        l !! i = Some sat ∧ noradId sat = id ∧ candidate st selectedId sat q
        ∧ d = distance3 q selectedPos
        ∧ (∀ j sat' q', l !! j = Some sat' → candidate st selectedId sat' q' →
             (d <= distance3 q' selectedPos)%R)
        ∧ (∀ j sat' q', (j < i)%nat → l !! j = Some sat' →
             candidate st selectedId sat' q' → (d < distance3 q' selectedPos)%R)
  end.

End Store.

(** ** The propagation loop: [Satellites.tsx] *)

Module Satellites.
Import Store.

Definition EARTH_RADIUS : R := 6371 / 1000.
Definition SCALE_FACTOR : R := 1 / 1000.
Definition ZUSTAND_UPDATE_INTERVAL : N := 60.

(** Values of satellite.js: an ECI vector and a geodetic location. *)
Record EciVec3 : Type := { ex : R; ey : R; ez : R }.
Record GeodeticLocation : Type := { latitude : R; longitude : R; height : R }.

Record SatelliteData (SatRec : Type) : Type := {
  satrec : SatRec;
  info : SatelliteInfo
}.
Arguments satrec {SatRec} _.
Arguments info {SatRec} _.

(** The refs of the component: they live across frames and only
    [useFrame] writes them. *)
Record Refs : Type := {
  localPositionBuffer : PositionMap;
  frameCounter : N
}.

Section Frame.

(** The SGP4 collaborator (satellite.js).  [twoline2satrec] and
    [propagate] may throw, which is [None]; the conversions are total.
    The time is the store's [currentTime]. *)
Variable SatRec : Type.
Variable twoline2satrec : string → string → option SatRec.
Variable propagate : SatRec → Z → option (EciVec3 * EciVec3).
Variable gstime : Z → R.
Variable eciToGeodetic : EciVec3 → R → GeodeticLocation.

(** [useMemo]: satellites whose elements do not parse are dropped. *)
Definition satelliteData (sats : list SatelliteInfo)
  : list (SatelliteData SatRec) :=
  omap (λ sat,
          match twoline2satrec (line1 sat) (line2 sat) with
          | Some rec => Some {| satrec := rec; info := sat |}
          | None => None
          end) sats.

(** The sample written for one satellite: geodetic position to scene
    coordinates, degrees for display, speed from the ECI velocity. *)
Definition visualPosition (positionEci velocityEci : EciVec3) (gmst : R)
  : SatellitePosition :=
  let positionGd := eciToGeodetic positionEci gmst in
  let lat_ := latitude positionGd in
  let lon_ := longitude positionGd in
  let alt_ := height positionGd in
  let radius := (EARTH_RADIUS + alt_ * SCALE_FACTOR)%R in
  let x_ := (radius * cos lat_ * cos lon_)%R in
  let y_ := (radius * sin lat_)%R in
  let z_ := (radius * cos lat_ * sin lon_)%R in
  let velocity_ :=
    sqrt (ex velocityEci ^ 2 + ey velocityEci ^ 2 + ez velocityEci ^ 2) in
  {| x := x_; y := y_; z := z_;
     lat := (lat_ * 180 / PI)%R;
     lon := (lon_ * 180 / PI)%R;
     alt := alt_;
     velocity := velocity_ |}.

(** The body of [satelliteData.forEach], a [try] whose [catch] only
    logs.  The write to the buffer is the last statement of the [try],
    so an exception thrown anywhere in it comes before the write and
    leaves the buffer as it was; [propagate] returning [None] stands
    for such an exception.  The antenna pointing and the instanced
    mesh, which the body also updates, are outside the model. *)
Definition processSatellite (time : Z) (buffer : PositionMap)
    (satData : SatelliteData SatRec) : PositionMap :=
  match propagate (satrec satData) time with
  | None => buffer
  | Some (positionEci, velocityEci) =>
      let gmst := gstime time in
      <[noradId (info satData) :=
          visualPosition positionEci velocityEci gmst]> buffer
  end.

(** [localPositionBuffer.current.forEach((pos, id) =>
    setSatellitePosition(id, pos))] *)
Definition flush (buffer : PositionMap) (st : SatelliteStore)
  : SatelliteStore :=
  map_fold (λ id pos acc, setSatellitePosition id pos acc) st buffer.

(** The guard at the top of the frame callback lets the frame run: the
    instanced mesh is mounted and some satellite is loaded. *)
Definition guardPasses (meshRef : bool) (st : SatelliteStore) : Prop :=
  meshRef = true ∧ satelliteData (satellites st) ≠ [].

(** One frame.  The result carries [shouldUpdateZustand], that is
    whether this frame copied the buffer into the store; a frame
    stopped by the guard copies nothing. *)
Definition useFrame (meshRef : bool) (refs : Refs) (st : SatelliteStore)
  : Refs * SatelliteStore * bool :=
  let data := satelliteData (satellites st) in
  if negb meshRef || (length data =? 0)%nat then (refs, st, false)
  else
    let counter := (frameCounter refs + 1)%N in
    let time := currentTime st in
    let shouldUpdateZustand :=
      (counter mod ZUSTAND_UPDATE_INTERVAL =? 0)%N in
    let buffer :=
      fold_left (processSatellite time) data (localPositionBuffer refs) in
    let refs' :=
      {| localPositionBuffer := buffer; frameCounter := counter |} in
    if shouldUpdateZustand then (refs', flush buffer st, true)
    else (refs', st, false).

(** What happens around one frame: whether the mesh is mounted when the
    frame runs, and what the rest of the application did to the store
    since the previous frame. *)
Record Frame : Type := {
  meshRef : bool;
  intents : SatelliteStore → SatelliteStore
}.

(** A sequence of frames; the result lists, frame by frame, whether the
    buffer was copied into the store. *)
Fixpoint run (frames : list Frame) (refs : Refs) (st : SatelliteStore)
  : Refs * SatelliteStore * list bool :=
  match frames with
  | [] => (refs, st, [])
  | f :: rest =>
      let '(refs1, st1, copied) := useFrame (meshRef f) refs (intents f st) in
      let '(refs2, st2, log) := run rest refs1 st1 in
      (refs2, st2, copied :: log)
  end.

End Frame.

End Satellites.

(** ** The distance shown in the details panel: [SatelliteDetails.tsx] *)

Module SatelliteDetails.

Inductive LengthUnit : Type := Metres | Kilometres.

(** [formatDistance(km)]: the number printed, its digits after the point
    and the unit written after it. *)
Definition formatDistance (km : R) : R * nat * LengthUnit :=
  if bool_decide (km < 1)%R then ((km * 1000)%R, 0%nat, Metres)
  else if bool_decide (km < 100)%R then (km, 2%nat, Kilometres)
  else (km, 0%nat, Kilometres).

End SatelliteDetails.

(** ** The camera: [CameraController.tsx] *)

Module CameraController.
Import Store.
#[local] Open Scope R_scope.

(** [THREE.Vector3] with the operations the controller calls, as three.js
    defines them. *)
Record Vector3 : Type := { vx : R; vy : R; vz : R }.

Definition lerpVectors (v1 v2 : Vector3) (alpha : R) : Vector3 :=
  {| vx := vx v1 + (vx v2 - vx v1) * alpha;
     vy := vy v1 + (vy v2 - vy v1) * alpha;
     vz := vz v1 + (vz v2 - vz v1) * alpha |}.

Definition lerp (this v : Vector3) (alpha : R) : Vector3 :=
  {| vx := vx this + (vx v - vx this) * alpha;
     vy := vy this + (vy v - vy this) * alpha;
     vz := vz this + (vz v - vz this) * alpha |}.

Definition add (this v : Vector3) : Vector3 :=
  {| vx := vx this + vx v; vy := vy this + vy v; vz := vz this + vz v |}.

Definition multiplyScalar (this : Vector3) (s : R) : Vector3 :=
  {| vx := vx this * s; vy := vy this * s; vz := vz this * s |}.

Definition vlength (this : Vector3) : R :=
  sqrt (vx this * vx this + vy this * vy this + vz this * vz this).

(** [normalize()] is [divideScalar(length() || 1)]. *)
Definition normalize (this : Vector3) : Vector3 :=
  let l := vlength this in
  let d := if bool_decide (l = 0) then 1 else l in
  {| vx := vx this / d; vy := vy this / d; vz := vz this / d |}.

Definition distanceTo (this v : Vector3) : R :=
  let dx := vx this - vx v in
  let dy := vy this - vy v in
  let dz := vz this - vz v in
  sqrt (dx * dx + dy * dy + dz * dz).

Definition ofPosition (p : SatellitePosition) : Vector3 :=
  {| vx := x p; vy := y p; vz := z p |}.

Inductive CameraState : Type :=
| overview
| visiting_earth
| visiting_satellite
| closest_satellite_view
| transitioning.

#[global] Instance CameraState_eq_dec : EqDecision CameraState.
Proof. solve_decision. Defined.

(** The camera, the orbit controls and the refs and state of the
    component.  What [controls.update()] does inside the orbit controls
    (damping, auto-rotation) is outside the model. *)
Record Controller : Type := {
  cameraPosition : Vector3;
  controlsTarget : Vector3;
  autoRotate : bool;
  cameraState : CameraState;
  isTransitioning : bool;
  targetPosition : Vector3;
  targetLookAt : Vector3;
  transitionProgress : R;
  startCameraPosition : Vector3;
  startCameraTarget : Vector3
}.

Definition easeOutExpo (t : R) : R :=
  if bool_decide (t = 1) then 1 else 1 - Rpower 2 (-10 * t).

(** [startTransition], with the controls mounted or not. *)
Definition startTransition (controlsRef : bool)
    (newPosition newTarget : Vector3) (c : Controller) : Controller :=
  {| cameraPosition := cameraPosition c;
     controlsTarget := controlsTarget c;
     autoRotate := if controlsRef then false else autoRotate c;
     cameraState := transitioning;
     isTransitioning := true;
     targetPosition := newPosition;
     targetLookAt := newTarget;
     transitionProgress := 0;
     startCameraPosition := cameraPosition c;
     startCameraTarget :=
       if controlsRef then controlsTarget c else startCameraTarget c |}.

(** The steady state that the selection implies, as the end of a
    transition resolves it. *)
Definition settledState (st : SatelliteStore) : CameraState :=
  if closestSatelliteMode st then closest_satellite_view
  else if negb (truthy (visitedObject st)) then overview
  else if bool_decide (visitedObject st = Some "earth") then visiting_earth
  else visiting_satellite.

(** The branch [if (isTransitioning) {...; return;}] of [useFrame]. *)
Definition transitionFrame (delta : R) (st : SatelliteStore) (c : Controller)
  : Controller :=
  let advanced := transitionProgress c + delta * (12 / 10) in
  let arrived := bool_decide (1 <= advanced) in
  let progress := if arrived then 1 else advanced in
  let easedProgress := easeOutExpo progress in
  {| cameraPosition :=
       lerpVectors (startCameraPosition c) (targetPosition c) easedProgress;
     controlsTarget :=
       lerpVectors (startCameraTarget c) (targetLookAt c) easedProgress;
     autoRotate := autoRotate c;
     cameraState := if arrived then settledState st else cameraState c;
     isTransitioning := if arrived then false else isTransitioning c;
     targetPosition := targetPosition c;
     targetLookAt := targetLookAt c;
     transitionProgress := progress;
     startCameraPosition := startCameraPosition c;
     startCameraTarget := startCameraTarget c |}.

Definition withView (position target : Vector3) (c : Controller)
  : Controller :=
  {| cameraPosition := position;
     controlsTarget := target;
     autoRotate := autoRotate c;
     cameraState := cameraState c;
     isTransitioning := isTransitioning c;
     targetPosition := targetPosition c;
     targetLookAt := targetLookAt c;
     transitionProgress := transitionProgress c;
     startCameraPosition := startCameraPosition c;
     startCameraTarget := startCameraTarget c |}.

Definition withTargetPosition (v : Vector3) (c : Controller) : Controller :=
  {| cameraPosition := cameraPosition c;
     controlsTarget := controlsTarget c;
     autoRotate := autoRotate c;
     cameraState := cameraState c;
     isTransitioning := isTransitioning c;
     targetPosition := v;
     targetLookAt := targetLookAt c;
     transitionProgress := transitionProgress c;
     startCameraPosition := startCameraPosition c;
     startCameraTarget := startCameraTarget c |}.

(** The id under an option that passed a truthiness test. *)
Definition idOf (o : option string) : string := default EmptyString o.

(** The rest of [useFrame]: following in the steady states. *)
Definition steadyFrame (st : SatelliteStore) (c : Controller) : Controller :=
  if bool_decide (cameraState c = closest_satellite_view)
     && closestSatelliteMode st
     && truthy (selectedSatellite st)
     && truthy (closestSatelliteId st)
  then
    match getRealtimePosition st (idOf (selectedSatellite st)),
          getRealtimePosition st (idOf (closestSatelliteId st)) with
    | Some pos1, Some pos2 =>
        let midpoint :=
          {| vx := (x pos1 + x pos2) / 2;
             vy := (y pos1 + y pos2) / 2;
             vz := (z pos1 + z pos2) / 2 |} in
        withView (cameraPosition c)
          (lerp (controlsTarget c) midpoint (5 / 100)) c
    | _, _ => c
    end
  else if bool_decide (cameraState c = visiting_satellite)
          && truthy (visitedObject st)
          && negb (bool_decide (visitedObject st = Some "earth"))
  then
    match getRealtimePosition st (idOf (visitedObject st)) with
    | Some satPos =>
        let satVector := ofPosition satPos in
        let target := lerp (controlsTarget c) satVector (1 / 10) in
        let currentDistance := distanceTo (cameraPosition c) satVector in
        let normal := normalize satVector in
        if bool_decide (4 < currentDistance)
           || bool_decide (currentDistance < 15 / 10)
        then
          let offset := multiplyScalar normal (25 / 10) in
          let idealPos := add satVector offset in
          withView (lerp (cameraPosition c) idealPos (5 / 100)) target c
        else withView (cameraPosition c) target c
    | None => c
    end
  else if bool_decide (cameraState c = visiting_earth) then c
  else if truthy (followedSatellite st)
          && negb (truthy (visitedObject st))
          && negb (closestSatelliteMode st)
  then
    match getRealtimePosition st (idOf (followedSatellite st)) with
    | Some satPos =>
        let tp := ofPosition satPos in
        let satVector := normalize tp in
        let offset := multiplyScalar satVector 3 in
        let cameraPos := add tp offset in
        withTargetPosition tp
          (withView (lerp (cameraPosition c) cameraPos (5 / 100))
                    (lerp (controlsTarget c) tp (5 / 100)) c)
    | None => c
    end
  else c.

(** [useFrame((state, delta) => {...})] *)
Definition useFrame (controlsRef : bool) (delta : R) (st : SatelliteStore)
    (c : Controller) : Controller :=
  if negb controlsRef then c
  else if isTransitioning c then transitionFrame delta st c
  else steadyFrame st c.

(** [n] frames in a row with the same frame time and no change to the
    store in between. *)
Fixpoint frames (n : nat) (delta : R) (st : SatelliteStore) (c : Controller)
  : Controller :=
  match n with
  | O => c
  | S k => frames k delta st (useFrame true delta st c)
  end.

End CameraController.

(** ** Trail level of detail: [SatelliteTrails.tsx] *)

Module SatelliteTrails.

Definition MAX_TRAIL_SEGMENTS : Z := 100.
Definition MIN_TRAIL_SEGMENTS : Z := 10.
Definition MAX_VISIBLE_DISTANCE : Q := 100.
Definition LOD_NEAR_DISTANCE : Q := 15.
Definition LOD_FAR_DISTANCE : Q := 50.
Definition LOD_UPDATE_THRESHOLD : Q := 5.

(** [a < b] on numbers. *)
Definition Qltb (a b : Q) : bool := negb (Qle_bool b a).

(** The sample count for a camera-to-satellite distance: the chain of
    [if]s that assigns [newSegments]. *)
Definition newSegments (distance : Q) : Z :=
  if Qltb MAX_VISIBLE_DISTANCE distance then 0
  else if Qltb distance LOD_NEAR_DISTANCE then MAX_TRAIL_SEGMENTS
  else if Qltb distance LOD_FAR_DISTANCE then
    let t := ((distance - LOD_NEAR_DISTANCE)
              / (LOD_FAR_DISTANCE - LOD_NEAR_DISTANCE))%Q in
    Qfloor (inject_Z MAX_TRAIL_SEGMENTS
            - t * inject_Z (MAX_TRAIL_SEGMENTS - MIN_TRAIL_SEGMENTS))%Q
  else
    let t := ((distance - LOD_FAR_DISTANCE)
              / (MAX_VISIBLE_DISTANCE - LOD_FAR_DISTANCE))%Q in
    let floored := Qfloor (inject_Z MIN_TRAIL_SEGMENTS * (1 - t))%Q in
    Z.max 0 floored.

(** The state the frame callback keeps: the distance of the last
    recomputation and the current sample count. *)
Record Lod : Type := {
  lastDistance : Q;
  lodSegments : Z
}.

(** [useFrame]: [active] is the guard (trails shown, a satellite selected,
    its position known); the count is recomputed only when the distance
    moved by at least the threshold. *)
Definition useFrame (active : bool) (distance : Q) (l : Lod) : Lod :=
  if negb active then l
  else if Qltb (Qabs (distance - lastDistance l)) LOD_UPDATE_THRESHOLD then l
  else {| lastDistance := distance; lodSegments := newSegments distance |}.

(** *** The branches, for the proofs

    The two interpolations written as linear functions of the distance
    (with the constants above), and the four ranges of distances that the
    chain of [if]s tells apart. *)
Definition interpolated (d : Q) : Q := (100 - (d - 15) * (18 # 7))%Q.
Definition fallingOff (d : Q) : Q := (10 - (d - 50) * (1 # 5))%Q.

Inductive Region (d : Q) : Prop :=
| Near : (d < LOD_NEAR_DISTANCE)%Q → Region d
| Interpolating :
    (LOD_NEAR_DISTANCE <= d)%Q → (d < LOD_FAR_DISTANCE)%Q → Region d
| FallingOff :
    (LOD_FAR_DISTANCE <= d)%Q → (d <= MAX_VISIBLE_DISTANCE)%Q → Region d
| Beyond : (MAX_VISIBLE_DISTANCE < d)%Q → Region d.

End SatelliteTrails.

(** ** Concrete inputs

    Small stores and catalogs on which the definitions above are
    evaluated. *)

Module Examples.
Import Store.
#[local] Open Scope R_scope.

Definition posAt (a b c : R) : SatellitePosition :=
  {| x := a; y := b; z := c; lat := 0; lon := 0; alt := 0; velocity := 0 |}.

Definition sat (id : string) : SatelliteInfo :=
  {| name := id; noradId := id; line1 := "1"; line2 := "2";
     category := None; operator := None; launchDate := None |}.

(** Two satellites, A at the origin and B at (3, 4, 0). *)
Definition bufferAB : PositionMap :=
  <["A" := posAt 0 0 0]> (<["B" := posAt 3 4 0]> ∅).

Definition storeAB : SatelliteStore :=
  setRealtimePositionGetter (Some (λ _, bufferAB))
    (setSatellites [sat "A"; sat "B"] (initialStore 0)).

(** A is selected with no prior selection. *)
Definition selectedA : SatelliteStore :=
  setSelectedSatellite (Some "A") storeAB.

(** Compare mode is then enabled, which schedules one deferred call. *)
Definition comparingA : SatelliteStore := (enableClosestSatelliteMode selectedA).1.
Definition pendingA : list Deferred := (enableClosestSatelliteMode selectedA).2.

(** The deferred call runs. *)
Definition resolvedA : SatelliteStore :=
  foldr fire comparingA pendingA.

(** Compare mode is switched off again before the deferred call runs. *)
Definition disabledThenFired : SatelliteStore :=
  foldr fire (disableClosestSatelliteMode comparingA) pendingA.

(** B is selected instead before the deferred call runs. *)
Definition reselectedThenFired : SatelliteStore :=
  foldr fire (setSelectedSatellite (Some "B") comparingA) pendingA.

(** The selection is cleared before the deferred call runs. *)
Definition deselectedThenFired : SatelliteStore :=
  foldr fire (setSelectedSatellite None comparingA) pendingA.

(** C, which has no buffered position yet, is selected. *)
Definition selectedC : SatelliteStore :=
  setSelectedSatellite (Some "C") storeAB.

(** A is selected and is the only satellite with a buffered position. *)
Definition aloneA : SatelliteStore :=
  setSelectedSatellite (Some "A")
    (setRealtimePositionGetter (Some (λ _, <["A" := posAt 0 0 0]> ∅))
       (setSatellites [sat "A"; sat "B"] (initialStore 0))).

(** A stand-in for the SGP4 collaborator: the orbital record is a flag,
    [true] when the propagation succeeds (at a fixed point above the
    equator) and [false] when it throws; the element lines always
    parse, the line-1 field carrying the flag. *)
Definition flagSat (id : string) (ok : bool) : SatelliteInfo :=
  {| name := id; noradId := id; line1 := if ok then "1" else "0";
     line2 := "2"; category := None; operator := None; launchDate := None |}.

Definition parseFlag (l1 l2 : string) : option bool := Some (String.eqb l1 "1").

Definition fixedPosition : Satellites.EciVec3 :=
  {| Satellites.ex := 7000; Satellites.ey := 0; Satellites.ez := 0 |}.

Definition fixedVelocity : Satellites.EciVec3 :=
  {| Satellites.ex := 0; Satellites.ey := 7; Satellites.ez := 0 |}.

Definition propagateFlag (ok : bool) (time : Z)
  : option (Satellites.EciVec3 * Satellites.EciVec3) :=
  if ok then Some (fixedPosition, fixedVelocity) else None.

Definition geodeticFlag (p : Satellites.EciVec3) (gmst : R)
  : Satellites.GeodeticLocation :=
  {| Satellites.latitude := 0; Satellites.longitude := 0;
     Satellites.height := 629 |}.

Definition flagData (id : string) (ok : bool) : Satellites.SatelliteData bool :=
  {| Satellites.satrec := ok; Satellites.info := flagSat id ok |}.

Definition useFrameFlag :=
  Satellites.useFrame bool parseFlag propagateFlag (λ _, 0) geodeticFlag.

Definition processFlag :=
  Satellites.processSatellite bool propagateFlag (λ _, 0) geodeticFlag.

Definition runFlag :=
  Satellites.run bool parseFlag propagateFlag (λ _, 0) geodeticFlag.

Definition refsAt (n : N) : Satellites.Refs :=
  {| Satellites.localPositionBuffer := ∅; Satellites.frameCounter := n |}.

(** A catalog of one satellite that propagates. *)
Definition storeOne : SatelliteStore :=
  setSatellites [flagSat "A" true] (initialStore 0).

(** Three satellites, the middle one failing. *)
Definition dataAXB : list (Satellites.SatelliteData bool) :=
  [flagData "A" true; flagData "X" false; flagData "B" true].

(** Two frames with the mesh mounted and the store left alone. *)
Definition twoFrames : list Satellites.Frame :=
  [ {| Satellites.meshRef := true; Satellites.intents := λ st, st |};
    {| Satellites.meshRef := true; Satellites.intents := λ st, st |} ].

(** The camera at rest in the overview preset, and the preset for
    visiting the Earth. *)
Definition vec (a b c : R) : CameraController.Vector3 :=
  {| CameraController.vx := a; CameraController.vy := b;
     CameraController.vz := c |}.

Definition overviewCamera : CameraController.Controller :=
  {| CameraController.cameraPosition := vec 0 15 30;
     CameraController.controlsTarget := vec 0 0 0;
     CameraController.autoRotate := false;
     CameraController.cameraState := CameraController.overview;
     CameraController.isTransitioning := false;
     CameraController.targetPosition := vec 0 0 0;
     CameraController.targetLookAt := vec 0 0 0;
     CameraController.transitionProgress := 0;
     CameraController.startCameraPosition := vec 0 0 0;
     CameraController.startCameraTarget := vec 0 0 0 |}.

Definition visitingEarthPosition : CameraController.Vector3 :=
  vec 0 (Satellites.EARTH_RADIUS * (15 / 10)) (Satellites.EARTH_RADIUS * 2).


End Examples.

(** ** The rest of the store: pointers, clock, filters and display *)

Module StoreRest.
Import Store.

(** As for the compare fields, each group of fields has one rebuilding
    function and the setters of the store name the field they change. *)
Definition setPointers (hovered followed : option string)
    (st : SatelliteStore) : SatelliteStore := {|
  satellites := satellites st;
  satellitePositions := satellitePositions st;
  selectedSatellite := selectedSatellite st;
  hoveredSatellite := hovered;
  followedSatellite := followed;
  visitedObject := visitedObject st;
  closestSatelliteMode := closestSatelliteMode st;
  closestSatelliteId := closestSatelliteId st;
  closestSatelliteDistance := closestSatelliteDistance st;
  currentTime := currentTime st;
  timeSpeed := timeSpeed st;
  isPaused := isPaused st;
  searchQuery := searchQuery st;
  filterCategory := filterCategory st;
  filterOperator := filterOperator st;
  showTrails := showTrails st;
  showLabels := showLabels st;
  trailLength := trailLength st;
  realtimePositionGetter := realtimePositionGetter st
|}.

Definition setClock (time : Z) (speed : R) (paused : bool)
    (st : SatelliteStore) : SatelliteStore := {|
  satellites := satellites st;
  satellitePositions := satellitePositions st;
  selectedSatellite := selectedSatellite st;
  hoveredSatellite := hoveredSatellite st;
  followedSatellite := followedSatellite st;
  visitedObject := visitedObject st;
  closestSatelliteMode := closestSatelliteMode st;
  closestSatelliteId := closestSatelliteId st;
  closestSatelliteDistance := closestSatelliteDistance st;
  currentTime := time;
  timeSpeed := speed;
  isPaused := paused;
  searchQuery := searchQuery st;
  filterCategory := filterCategory st;
  filterOperator := filterOperator st;
  showTrails := showTrails st;
  showLabels := showLabels st;
  trailLength := trailLength st;
  realtimePositionGetter := realtimePositionGetter st
|}.

Definition setFilters (query : string) (cat op : option string)
    (st : SatelliteStore) : SatelliteStore := {|
  satellites := satellites st;
  satellitePositions := satellitePositions st;
  selectedSatellite := selectedSatellite st;
  hoveredSatellite := hoveredSatellite st;
  followedSatellite := followedSatellite st;
  visitedObject := visitedObject st;
  closestSatelliteMode := closestSatelliteMode st;
  closestSatelliteId := closestSatelliteId st;
  closestSatelliteDistance := closestSatelliteDistance st;
  currentTime := currentTime st;
  timeSpeed := timeSpeed st;
  isPaused := isPaused st;
  searchQuery := query;
  filterCategory := cat;
  filterOperator := op;
  showTrails := showTrails st;
  showLabels := showLabels st;
  trailLength := trailLength st;
  realtimePositionGetter := realtimePositionGetter st
|}.

Definition setDisplay (trails labels : bool) (len : R)
    (st : SatelliteStore) : SatelliteStore := {|
  satellites := satellites st;
  satellitePositions := satellitePositions st;
  selectedSatellite := selectedSatellite st;
  hoveredSatellite := hoveredSatellite st;
  followedSatellite := followedSatellite st;
  visitedObject := visitedObject st;
  closestSatelliteMode := closestSatelliteMode st;
  closestSatelliteId := closestSatelliteId st;
  closestSatelliteDistance := closestSatelliteDistance st;
  currentTime := currentTime st;
  timeSpeed := timeSpeed st;
  isPaused := isPaused st;
  searchQuery := searchQuery st;
  filterCategory := filterCategory st;
  filterOperator := filterOperator st;
  showTrails := trails;
  showLabels := labels;
  trailLength := len;
  realtimePositionGetter := realtimePositionGetter st
|}.

Definition setHoveredSatellite (id : option string) (st : SatelliteStore) :=
  setPointers id (followedSatellite st) st.
Definition setFollowedSatellite (id : option string) (st : SatelliteStore) :=
  setPointers (hoveredSatellite st) id st.

Definition setCurrentTime (time : Z) (st : SatelliteStore) :=
  setClock time (timeSpeed st) (isPaused st) st.
Definition setTimeSpeed (speed : R) (st : SatelliteStore) :=
  setClock (currentTime st) speed (isPaused st) st.
Definition togglePause (st : SatelliteStore) :=
  setClock (currentTime st) (timeSpeed st) (negb (isPaused st)) st.
Definition setPaused (paused : bool) (st : SatelliteStore) :=
  setClock (currentTime st) (timeSpeed st) paused st.

Definition setSearchQuery (query : string) (st : SatelliteStore) :=
  setFilters query (filterCategory st) (filterOperator st) st.
Definition setFilterCategory (cat : option string) (st : SatelliteStore) :=
  setFilters (searchQuery st) cat (filterOperator st) st.
Definition setFilterOperator (op : option string) (st : SatelliteStore) :=
  setFilters (searchQuery st) (filterCategory st) op st.

Definition toggleTrails (st : SatelliteStore) :=
  setDisplay (negb (showTrails st)) (showLabels st) (trailLength st) st.
Definition toggleLabels (st : SatelliteStore) :=
  setDisplay (showTrails st) (negb (showLabels st)) (trailLength st) st.
Definition setTrailLength (len : R) (st : SatelliteStore) :=
  setDisplay (showTrails st) (showLabels st) len st.

(** [s.includes(sub)]: [sub] occurs somewhere in [s]. *)
Fixpoint includes (s sub : string) : bool :=
  if String.prefix sub s then true
  else match s with
       | EmptyString => false
       | String _ rest => includes rest sub
       end.

Section Filtering.

(** [String.prototype.toLowerCase], a function of the runtime. *)
Variable toLowerCase : string → string.

(** The three tests of [getFilteredSatellites]. *)
Definition matchesQuery (query : string) (sat : SatelliteInfo) : bool :=
  includes (toLowerCase (name sat)) query || includes (noradId sat) query.

Definition inCategory (cat : option string) (sat : SatelliteInfo) : bool :=
  bool_decide (category sat = cat).

Definition byOperator (op : option string) (sat : SatelliteInfo) : bool :=
  bool_decide (operator sat = op).

(** [getFilteredSatellites]: each filter is applied only when its field is
    truthy. *)
Definition getFilteredSatellites (st : SatelliteStore) : list SatelliteInfo :=
  let filtered := satellites st in
  let filtered :=
    if truthy (Some (searchQuery st)) then
      let query := toLowerCase (searchQuery st) in
      List.filter (matchesQuery query) filtered
    else filtered in
  let filtered :=
    if truthy (filterCategory st)
    then List.filter (inCategory (filterCategory st)) filtered
    else filtered in
  let filtered :=
    if truthy (filterOperator st)
    then List.filter (byOperator (filterOperator st)) filtered
    else filtered in
  filtered.

(** The entries that pass every active filter, as one test. *)
Definition passes (st : SatelliteStore) (sat : SatelliteInfo) : bool :=
  (negb (truthy (Some (searchQuery st)))
   || matchesQuery (toLowerCase (searchQuery st)) sat)
  && (negb (truthy (filterCategory st)) || inCategory (filterCategory st) sat)
  && (negb (truthy (filterOperator st)) || byOperator (filterOperator st) sat).

End Filtering.

End StoreRest.

(** ** The list panel: [SatelliteList.tsx] *)

Module SatelliteList.
Import Store StoreRest.

(** [categories]: the truthy categories of the catalog, collected in a
    [Set] and listed in insertion order, that is by first occurrence. *)
Definition addCategory (cats : list string) (sat : SatelliteInfo)
  : list string :=
  match category sat with
  | Some c =>
      if truthy (Some c)
      then (if bool_decide (c ∈ cats) then cats else cats ++ [c])
      else cats
  | None => cats
  end.

Definition categories (sats : list SatelliteInfo) : list string :=
  fold_left addCategory sats [].

(** The three click handlers of a row, for the satellite [id] of the
    row. *)
Definition clickRow (id : string) (st : SatelliteStore) : SatelliteStore :=
  setSelectedSatellite (Some id) st.

Definition clickVisit (id : string) (st : SatelliteStore) : SatelliteStore :=
  let isVisiting := bool_decide (visitedObject st = Some id) in
  if isVisiting then setVisitedObject None st
  else setSelectedSatellite (Some id) (setVisitedObject (Some id) st).

Definition clickFollow (id : string) (st : SatelliteStore) : SatelliteStore :=
  setFollowedSatellite
    (if bool_decide (followedSatellite st = Some id) then None else Some id)
    st.

End SatelliteList.

(** ** The handlers of the details panel, the navigation bar and the
       Earth *)

Module Handlers.
Import Store StoreRest.

(** [SatelliteDetails]: the panel is rendered only with a selection. *)
Definition handleVisit (st : SatelliteStore) : SatelliteStore :=
  let isVisiting := bool_decide (visitedObject st = selectedSatellite st) in
  if isVisiting then setVisitedObject None st
  else setVisitedObject (selectedSatellite st) st.

(** The deferred call that enabling schedules is returned with the
    store. *)
Definition handleClosestSatellite (st : SatelliteStore)
  : SatelliteStore * list Deferred :=
  if closestSatelliteMode st then (disableClosestSatelliteMode st, [])
  else
    let '(st1, pending) := enableClosestSatelliteMode st in
    if truthy (visitedObject st) then (setVisitedObject None st1, pending)
    else (st1, pending).

(** [getOrbitalType(alt)] *)
Inductive OrbitalType : Type := LEO | MEO | GEO | HEO.

Definition getOrbitalType (alt : R) : OrbitalType :=
  if bool_decide (alt < 2000)%R then LEO
  else if bool_decide (alt < 35786)%R then MEO
  else if bool_decide (35000 < alt)%R && bool_decide (alt < 36000)%R then GEO
  else HEO.

(** [formatCoordinate(value, type)]: the magnitude printed and the letter
    after it. *)
Inductive Axis : Type := LatAxis | LonAxis.
Inductive Direction : Type := North | South | East | West.

Definition formatCoordinate (value : R) (type : Axis) : R * Direction :=
  let abs := Rabs value in
  let direction :=
    match type with
    | LatAxis => if bool_decide (0 <= value)%R then North else South
    | LonAxis => if bool_decide (0 <= value)%R then East else West
    end in
  (abs, direction).

(** [NavigationControls] and the click on the Earth. *)
Definition handleReturnToOverview (st : SatelliteStore) : SatelliteStore :=
  setSelectedSatellite None (setVisitedObject None st).

Definition handleVisitEarth (st : SatelliteStore) : SatelliteStore :=
  setSelectedSatellite None (setVisitedObject (Some "earth") st).

Definition handleEarthClick (st : SatelliteStore) : SatelliteStore :=
  setSelectedSatellite None (setVisitedObject (Some "earth") st).

Inductive CameraModeLabel : Type :=
| OverviewMode | EarthObservation | SatelliteCloseUp.

Definition getCameraMode (st : SatelliteStore) : CameraModeLabel :=
  if negb (truthy (visitedObject st)) then OverviewMode
  else if bool_decide (visitedObject st = Some "earth") then EarthObservation
  else SatelliteCloseUp.

(** What the user can do to the selection through the panels.  The visit
    button of the details panel is disabled while compare mode is on, and
    the details panel exists only with a selection. *)
Inductive Intent : Type :=
| ClickRow (id : string)
| ClickVisit (id : string)
| ClickFollow (id : string)
| CloseDetails
| PanelVisit
| PanelCompare
| ReturnToOverview
| VisitEarth
| EarthClick
| TimerFires.

Definition detailsShown (st : SatelliteStore) : bool :=
  truthy (selectedSatellite st)
  && existsb (λ sat, bool_decide (Some (noradId sat) = selectedSatellite st))
       (satellites st).

Definition applyIntent (i : Intent) (st : SatelliteStore) : SatelliteStore :=
  match i with
  | ClickRow id => SatelliteList.clickRow id st
  | ClickVisit id => SatelliteList.clickVisit id st
  | ClickFollow id => SatelliteList.clickFollow id st
  | CloseDetails =>
      if detailsShown st then setSelectedSatellite None st else st
  | PanelVisit =>
      if detailsShown st && negb (closestSatelliteMode st)
      then handleVisit st else st
  | PanelCompare =>
      if detailsShown st then (handleClosestSatellite st).1 else st
  | ReturnToOverview =>
      if truthy (visitedObject st) then handleReturnToOverview st else st
  | VisitEarth =>
      if bool_decide (visitedObject st = Some "earth") then st
      else handleVisitEarth st
  | EarthClick => handleEarthClick st
  | TimerFires => findClosestSatellite st
  end.

(** Visiting and comparing do not drive the camera together, and compare
    mode is on only with a selection. *)
Definition coherent (st : SatelliteStore) : Prop :=
  (closestSatelliteMode st = true → truthy (visitedObject st) = false)
  ∧ (closestSatelliteMode st = true → truthy (selectedSatellite st) = true).

End Handlers.

(** ** The clock: [TimeControls.tsx] *)

Module TimeControls.
Import Store StoreRest.

(** [new Date(t)] keeps the integral part of [t], towards zero. *)
Definition truncate (t : R) : Z :=
  if bool_decide (0 <= t)%R then Int_part t else (- Int_part (- t))%Z.

(** The callback of the 100 ms interval. *)
Definition tick (st : SatelliteStore) : SatelliteStore :=
  if negb (isPaused st)
  then setCurrentTime
         (truncate (IZR (currentTime st) + 100 * timeSpeed st)%R) st
  else st.

Fixpoint ticks (n : nat) (st : SatelliteStore) : SatelliteStore :=
  match n with
  | O => st
  | S k => ticks k (tick st)
  end.

(** [handleReset], at the wall-clock time [now]. *)
Definition handleReset (now : Z) (st : SatelliteStore) : SatelliteStore :=
  setPaused false (setTimeSpeed 1%R (setCurrentTime now st)).

Definition speedPresets : list R := [1; 10; 50; 100; 500]%R.

End TimeControls.

(** ** Antenna pointing: the tracking block of [Satellites.tsx] and
       [sendToArduino] *)

Module Tracking.
#[local] Open Scope R_scope.

(** The observer, in radians and kilometres. *)
Definition OBSERVER_lat : R := 264499 / 10000 * PI / 180.
Definition OBSERVER_lon : R := 803319 / 10000 * PI / 180.
Definition OBSERVER_alt : R := 12 / 100.

(** East, north and up components of the vector from the observer to the
    satellite, both given in the Earth-fixed frame. *)
Definition topocentric (satEcef obsEcef : Satellites.EciVec3) : R * R * R :=
  let rx := Satellites.ex satEcef - Satellites.ex obsEcef in
  let ry := Satellites.ey satEcef - Satellites.ey obsEcef in
  let rz := Satellites.ez satEcef - Satellites.ez obsEcef in
  let sinLat := sin OBSERVER_lat in
  let cosLat := cos OBSERVER_lat in
  let sinLon := sin OBSERVER_lon in
  let cosLon := cos OBSERVER_lon in
  let east := - sinLon * rx + cosLon * ry in
  let north := - sinLat * cosLon * rx - sinLat * sinLon * ry + cosLat * rz in
  let up := cosLat * cosLon * rx + cosLat * sinLon * ry + sinLat * rz in
  (east, north, up).

(** [Math.atan2(y, x)] on the reals. *)
Definition atan2 (y x : R) : R :=
  if bool_decide (0 < x) then atan (y / x)
  else if bool_decide (x < 0) then
    (if bool_decide (0 <= y) then atan (y / x) + PI else atan (y / x) - PI)
  else if bool_decide (0 < y) then PI / 2
  else if bool_decide (y < 0) then - (PI / 2)
  else 0.

(** Azimuth and elevation in degrees, as they are passed to
    [sendToArduino]. *)
Definition pointing (east north up : R) : R * R :=
  let range := sqrt (east * east + north * north + up * up) in
  let azimuth := atan2 east north * 180 / PI in
  let azimuth := if bool_decide (azimuth < 0) then azimuth + 360 else azimuth in
  let elevation := asin (up / range) * 180 / PI in
  let azimuth := Rmin 180 azimuth in
  let elevation := Rmax 0 (Rmin 90 elevation) in
  (azimuth, elevation).

(** [Math.round]: the integer below [x + 0.5]. *)
Definition round (x : R) : Z := Int_part (x + 1 / 2).

(** [sendToArduino(az, el)]: the two integers of the message, or nothing
    without a writer. *)
Definition sendToArduino (writer : bool) (az el : R) : option (Z * Z) :=
  if writer then Some (round az, round el) else None.

(** The rate limit around the call: [nows] are the values of
    [performance.now()] at the successive frames of the tracked satellite,
    [lastArduinoSend] the ref; the result lists the times at which
    [sendToArduino] is called. *)
Fixpoint sendTimes (nows : list R) (lastArduinoSend : R) : list R :=
  match nows with
  | [] => []
  | now :: rest =>
      if bool_decide (250 < now - lastArduinoSend)
      then now :: sendTimes rest now
      else sendTimes rest lastArduinoSend
  end.

End Tracking.

(** ** What a frame writes, satellite by satellite *)

Module LastWrite.
Import Store Satellites.

Section Frame.

Variable SatRec : Type.
Variable propagate : SatRec → Z → option (EciVec3 * EciVec3).
Variable gstime : Z → R.
Variable eciToGeodetic : EciVec3 → R → GeodeticLocation.

(** The sample that the loop of one frame leaves for [id]: the one of the
    last satellite of the list with that id whose propagation succeeds. *)
Fixpoint lastWrite (time : Z) (l : list (SatelliteData SatRec)) (id : string)
  : option SatellitePosition :=
  match l with
  | [] => None
  | d :: rest =>
      match lastWrite time rest id with
      | Some p => Some p
      | None =>
          match propagate (satrec d) time with
          | Some (positionEci, velocityEci) =>
              if bool_decide (noradId (info d) = id)
              then Some (visualPosition eciToGeodetic positionEci velocityEci
                           (gstime time))
              else None
          | None => None
          end
      end
  end.

End Frame.

End LastWrite.

(** ** The camera: presets, limits and the effect that starts a
       transition *)

Module CameraPresets.
Import Store CameraController.
#[local] Open Scope R_scope.

Definition vec3 (a b c : R) : Vector3 := {| vx := a; vy := b; vz := c |}.

(** [CAMERA_PRESETS] *)
Definition overviewPosition : Vector3 := vec3 0 15 30.
Definition overviewTarget : Vector3 := vec3 0 0 0.
Definition visitingEarthPosition : Vector3 :=
  vec3 0 (Satellites.EARTH_RADIUS * (15 / 10)) (Satellites.EARTH_RADIUS * 2).
Definition visitingEarthTarget : Vector3 := vec3 0 0 0.

(** [getMinDistance] and [getMaxDistance] *)
Definition getMinDistance (s : CameraState) : R :=
  match s with
  | visiting_earth => Satellites.EARTH_RADIUS + 1
  | visiting_satellite => 5 / 10
  | closest_satellite_view => 5
  | _ => 8
  end.

Definition getMaxDistance (s : CameraState) : R :=
  match s with
  | visiting_earth => Satellites.EARTH_RADIUS * 4
  | visiting_satellite => 5
  | closest_satellite_view => 50
  | _ => 50
  end.

(** The auto-rotation that each branch of the effect sets 100 ms later. *)
Definition presetAutoRotate (s : CameraState) : bool :=
  match s with
  | visiting_earth | visiting_satellite => true
  | _ => false
  end.

Definition withCameraState (s : CameraState) (c : Controller) : Controller :=
  {| cameraPosition := cameraPosition c;
     controlsTarget := controlsTarget c;
     autoRotate := autoRotate c;
     cameraState := s;
     isTransitioning := isTransitioning c;
     targetPosition := targetPosition c;
     targetLookAt := targetLookAt c;
     transitionProgress := transitionProgress c;
     startCameraPosition := startCameraPosition c;
     startCameraTarget := startCameraTarget c |}.

(** The midpoint of two satellites, which the compare view looks at. *)
Definition midpointOf (pos1 pos2 : SatellitePosition) : Vector3 :=
  vec3 ((x pos1 + x pos2) / 2) ((y pos1 + y pos2) / 2) ((z pos1 + z pos2) / 2).

(** The camera position and look-at of the compare view for two
    satellites. *)
Definition compareView (pos1 pos2 : SatellitePosition) : Vector3 * Vector3 :=
  let midpoint :=
    vec3 ((x pos1 + x pos2) / 2) ((y pos1 + y pos2) / 2)
         ((z pos1 + z pos2) / 2) in
  let dx := x pos2 - x pos1 in
  let dy := y pos2 - y pos1 in
  let dz := z pos2 - z pos1 in
  let distance := sqrt (dx * dx + dy * dy + dz * dz) in
  let normal := normalize midpoint in
  let cameraDistance := Rmax (distance * 2) 15 in
  let cameraPos :=
    add midpoint (multiplyScalar normal (cameraDistance * (7 / 10))) in
  (cameraPos, midpoint).

(** The camera position and look-at for visiting a satellite. *)
Definition visitView (satPos : SatellitePosition) : Vector3 * Vector3 :=
  let satVector := ofPosition satPos in
  let normal := normalize satVector in
  let distance := 25 / 10 in
  let offset := multiplyScalar normal distance in
  let tangent := normalize (vec3 (- vz normal) 0 (vx normal)) in
  let cameraPos :=
    add (add satVector offset) (multiplyScalar tangent (5 / 10)) in
  (cameraPos, satVector).

(** The steady state named first in the branch that the effect takes. *)
Definition intendedState (st : SatelliteStore) : CameraState :=
  if closestSatelliteMode st && truthy (selectedSatellite st)
     && truthy (closestSatelliteId st)
  then closest_satellite_view
  else if negb (truthy (visitedObject st)) then overview
  else if bool_decide (visitedObject st = Some "earth") then visiting_earth
  else visiting_satellite.

(** The effect on the selection: it runs when the visited object, compare
    mode, the selection or the closest satellite change.  Each branch
    names its steady state and, when the positions it needs are known,
    starts a transition, which puts the state to [transitioning]. *)
Definition effect (controlsRef : bool) (st : SatelliteStore) (c : Controller)
  : Controller :=
  if negb controlsRef then c
  else if closestSatelliteMode st && truthy (selectedSatellite st)
          && truthy (closestSatelliteId st)
  then
    match getRealtimePosition st (idOf (selectedSatellite st)),
          getRealtimePosition st (idOf (closestSatelliteId st)) with
    | Some pos1, Some pos2 =>
        let '(cameraPos, midpoint) := compareView pos1 pos2 in
        startTransition controlsRef cameraPos midpoint
          (withCameraState closest_satellite_view c)
    | _, _ => withCameraState closest_satellite_view c
    end
  else if negb (truthy (visitedObject st)) then
    startTransition controlsRef overviewPosition overviewTarget
      (withCameraState overview c)
  else if bool_decide (visitedObject st = Some "earth") then
    startTransition controlsRef visitingEarthPosition visitingEarthTarget
      (withCameraState visiting_earth c)
  else
    match getRealtimePosition st (idOf (visitedObject st)) with
    | Some satPos =>
        let '(cameraPos, satVector) := visitView satPos in
        startTransition controlsRef cameraPos satVector
          (withCameraState visiting_satellite c)
    | None => withCameraState visiting_satellite c
    end.

End CameraPresets.

(** ** Orbit trail: hysteresis of the sample count and the samples of
       the trail ([SatelliteTrails]) *)

Module TrailSamples.
Import SatelliteTrails.

Definition TIME_STEP_MINUTES : Q := 2.

(** The state of the component when it mounts: [useState(MAX_TRAIL_SEGMENTS)]
    and [useRef(0)]. *)
Definition initialLod : Lod :=
  {| lastDistance := 0; lodSegments := MAX_TRAIL_SEGMENTS |}.

(** Successive frames, each with its guard and its camera distance. *)
Definition runFrames (inputs : list (bool * Q)) (l : Lod) : Lod :=
  fold_left (λ acc '(active, distance), useFrame active distance acc) inputs l.

(** [for (let i = -lodSegments / 2; i < lodSegments / 2; i++)]: the values
    that [i] takes.  The loop is run with fuel. *)
Fixpoint loopFrom (fuel : nat) (i hi : Q) : list Q :=
  match fuel with
  | O => []
  | S fuel' => if Qltb i hi then i :: loopFrom fuel' (i + 1)%Q hi else []
  end.

Definition offsets (fuel : nat) (lodSegments : Z) : list Q :=
  loopFrom fuel (- (inject_Z lodSegments / 2))%Q (inject_Z lodSegments / 2)%Q.

(** [new Date(t)] keeps the integral part of [t], towards zero. *)
Definition Qtruncate (t : Q) : Z :=
  if Qle_bool 0 t then Qfloor t else Qceiling t.

(** The time of a sample, in milliseconds:
    [new Date(baseTime.getTime() + i * TIME_STEP_MINUTES * 60 * 1000)]. *)
Definition sampleTime (baseTime : Z) (i : Q) : Z :=
  Qtruncate (inject_Z baseTime + i * TIME_STEP_MINUTES * 60 * 1000)%Q.

(** What propagating to one sample time gives: a point of the scene, no
    position, or an exception. *)
Inductive Sample (Point : Type) : Type :=
| At (p : Point)
| NoPosition
| Throws.
Arguments At {Point} p.
Arguments NoPosition {Point}.
Arguments Throws {Point}.

Record TrailData (Point : Type) : Type := {
  trails : list (list Point);
  currentPosition : option Point
}.
Arguments trails {Point} _.
Arguments currentPosition {Point} _.

Section Trail.

Variable Point : Type.
(** Propagation and conversion to scene coordinates at a time. *)
Variable sample : Z → Sample Point.

(** The body of the loop, over the values of [i]; [None] when a sample
    throws, which the surrounding [try] turns into an empty result. *)
Fixpoint collect (baseTime : Z) (indices : list Q)
    (points : list Point) (current : option Point)
  : option (list Point * option Point) :=
  match indices with
  | [] => Some (points, current)
  | i :: rest =>
      match sample (sampleTime baseTime i) with
      | Throws => None
      | NoPosition => collect baseTime rest points current
      | At point =>
          collect baseTime rest (points ++ [point])
            (if Qeq_bool i 0 then Some point else current)
      end
  end.

(** The points and the current position that the loop gives when no
    sample throws. *)
Definition pointsOf (baseTime : Z) (indices : list Q) : list Point :=
  omap (λ i, match sample (sampleTime baseTime i) with
             | At p => Some p
             | _ => None
             end) indices.

Definition currentOf (baseTime : Z) (indices : list Q) (current : option Point)
  : option Point :=
  fold_left (λ c i, match sample (sampleTime baseTime i) with
                    | At p => if Qeq_bool i 0 then Some p else c
                    | _ => c
                    end) indices current.

(** [trailData], for a selected satellite that is ([found]) or is not in
    the catalog. *)
Definition trailData (fuel : nat) (found : bool) (baseTime : Z)
    (lodSegments : Z) : TrailData Point :=
  if (lodSegments =? 0)%Z then {| trails := []; currentPosition := None |}
  else if negb found then {| trails := []; currentPosition := None |}
  else
    match collect baseTime (offsets fuel lodSegments) [] None with
    | Some (points, current) =>
        {| trails := if (1 <? length points)%nat then [points] else [];
           currentPosition := current |}
    | None => {| trails := []; currentPosition := None |}
    end.

End Trail.

End TrailSamples.

(** ** Model detail by distance: [SatelliteLOD.tsx] *)

Module SatelliteLOD.

Inductive Level : Type := detailed | medium | simple | point.

(** The level chosen in the frame callback for a camera distance. *)
Definition lodLevel (distance : Q) : Level :=
  if SatelliteTrails.Qltb distance 10 then detailed
  else if SatelliteTrails.Qltb distance 25 then medium
  else if SatelliteTrails.Qltb distance 40 then simple
  else point.

(** How coarse a level is. *)
Definition coarseness (l : Level) : nat :=
  match l with
  | detailed => 0
  | medium => 1
  | simple => 2
  | point => 3
  end.

End SatelliteLOD.

(** ** Motion trails: [MotionTrails.tsx] *)

Module MotionTrails.
Import Store.

Record TrailPoint : Type := {
  position : CameraController.Vector3;
  timestamp : Q
}.

Definition MAX_TRAIL_POINTS : nat := 100.
Definition TRAIL_LIFETIME : Q := 10000.

Abbreviation Trails := (gmap string (list TrailPoint)).

(** [satellitesWithTrails]: a [Set], in insertion order. *)
Definition satellitesWithTrails (st : SatelliteStore) : list string :=
  let selected :=
    if truthy (selectedSatellite st)
    then [CameraController.idOf (selectedSatellite st)] else [] in
  if truthy (visitedObject st)
     && negb (bool_decide (visitedObject st = Some "earth"))
     && negb (bool_decide (CameraController.idOf (visitedObject st) ∈ selected))
  then selected ++ [CameraController.idOf (visitedObject st)]
  else selected.

(** One trail after a new point: the point is pushed, points at or past
    the lifetime are dropped, and of the rest the last hundred are kept. *)
Definition updateTrail (now : Q) (p : SatellitePosition)
    (trail : list TrailPoint) : list TrailPoint :=
  let newPoint :=
    {| position := CameraController.ofPosition p; timestamp := now |} in
  let trail := trail ++ [newPoint] in
  let cutoffTime := (now - TRAIL_LIFETIME)%Q in
  let validPoints :=
    List.filter (λ point, SatelliteTrails.Qltb cutoffTime (timestamp point))
      trail in
  if (MAX_TRAIL_POINTS <? length validPoints)%nat
  then drop (length validPoints - MAX_TRAIL_POINTS) validPoints
  else validPoints.

(** The body of [satellitesWithTrails.forEach]. *)
Definition trackSatellite (now : Q) (st : SatelliteStore)
    (trailData : Trails) (satId : string) : Trails :=
  match getRealtimePosition st satId with
  | None => trailData
  | Some p =>
      <[satId := updateTrail now p (default [] (trailData !! satId))]>
        trailData
  end.

(** The frame callback on the trail data; the lines drawn from it are
    outside the model. *)
Definition useFrame (groupRef : bool) (now : Q) (st : SatelliteStore)
    (trailData : Trails) : Trails :=
  if negb groupRef then trailData
  else
    let tracked := satellitesWithTrails st in
    let updated := fold_left (trackSatellite now st) tracked trailData in
    filter (λ kv, kv.1 ∈ tracked) updated.

(** The opacity of a point in [updateTrailLine]. *)
Definition opacity (currentTime : Q) (point : TrailPoint) : Q :=
  let age := (currentTime - timestamp point)%Q in
  (1 - age / TRAIL_LIFETIME)%Q.

End MotionTrails.

(** ** The catalog on the server: [TLEService] *)

Module TleService.
Import Store.

(** A JavaScript [Map] from ids to catalog entries, as the list of its
    entries in insertion order: [set] on a key that is present replaces
    the value in place, on a new key it appends. *)
Abbreviation Cache := (list (string * SatelliteInfo)).

Fixpoint mapSet (k : string) (v : SatelliteInfo) (m : Cache) : Cache :=
  match m with
  | [] => [(k, v)]
  | (k', v') :: rest =>
      if String.eqb k' k then (k, v) :: rest else (k', v') :: mapSet k v rest
  end.

Fixpoint mapGet (k : string) (m : Cache) : option SatelliteInfo :=
  match m with
  | [] => None
  | (k', v') :: rest => if String.eqb k' k then Some v' else mapGet k rest
  end.

Record Service : Type := {
  tleCache : Cache;
  lastUpdate : option Z;
  updateInProgress : bool
}.

Definition entry (name id l1 l2 cat op date : string) : SatelliteInfo :=
  {| name := name; noradId := id; line1 := l1; line2 := l2;
     category := Some cat; operator := Some op; launchDate := Some date |}.

Definition sampleSatellites : list SatelliteInfo :=
  [ entry "ISS (ZARYA)" "25544"
      "1 25544U 98067A   24311.50000000  .00012345  00000-0  12345-3 0  9999"
      "2 25544  51.6400 208.9163 0006317  73.1467  99.8173 15.54225995123456"
      "Space Station" "International" "1998-11-20";
    entry "STARLINK-1007" "44713"
      "1 44713U 19074A   24311.50000000  .00001234  00000-0  12345-4 0  9999"
      "2 44713  53.0534 123.4567 0001234  90.1234 269.9876 15.06123456789012"
      "Communications" "SpaceX" "2019-11-11";
    entry "NOAA 18" "28654"
      "1 28654U 05018A   24311.50000000  .00000234  00000-0  12345-4 0  9999"
      "2 28654  99.0534 123.4567 0012345  90.1234 270.0123 14.12345678901234"
      "Weather" "NOAA" "2005-05-20";
    entry "HUBBLE SPACE TELESCOPE" "20580"
      "1 20580U 90037B   24311.50000000  .00001234  00000-0  12345-4 0  9999"
      "2 20580  28.4698 123.4567 0002345  90.1234 269.9876 15.09123456789012"
      "Space Telescope" "NASA/ESA" "1990-04-24";
    entry "GPS BIIA-10 (PRN 32)" "20959"
      "1 20959U 90103A   24311.50000000 -.00000012  00000-0  00000-0 0  9999"
      "2 20959  54.9876 123.4567 0123456  90.1234 269.9876  2.00561234567890"
      "Navigation" "US Air Force" "1990-11-26" ].

(** [initializeWithSampleData], at the time [now]. *)
Definition initializeWithSampleData (now : Z) : Service :=
  {| tleCache :=
       fold_left (λ cache sat, mapSet (noradId sat) sat cache)
         sampleSatellites [];
     lastUpdate := Some now;
     updateInProgress := false |}.

(** [data.split('\n')] *)
Fixpoint splitLines (data : string) : list string :=
  match data with
  | EmptyString => [EmptyString]
  | String c rest =>
      if Ascii.eqb c (Ascii.ascii_of_nat 10) then EmptyString :: splitLines rest
      else match splitLines rest with
           | first :: others => String c first :: others
           | [] => [String c EmptyString]
           end
  end.

Section Parse.

(** [String.prototype.trim] of the runtime, and the two helpers of the
    service that derive the operator and the launch date. *)
Variable trim : string → string.
Variable guessOperator : string → string.
Variable extractLaunchDate : string → string.

Definition nonEmptyLines (data : string) : list string :=
  List.filter (λ line, negb (String.eqb line EmptyString))
    (map trim (splitLines data)).

(** The loop of [parseTLEData], three lines at a time; a group that is
    not complete ends it. *)
Fixpoint parseLines (lines : list string) (cat : string) (cache : Cache)
  : Cache :=
  match lines with
  | name :: line1 :: line2 :: rest =>
      parseLines rest cat
        (if String.prefix "1 " line1 && String.prefix "2 " line2
         then
           let noradId := trim (String.substring 2 5 line1) in
           mapSet noradId
             (entry name noradId line1 line2 cat (guessOperator name)
                (extractLaunchDate line1))
             cache
         else cache)
  | _ => cache
  end.

Definition parseTLEData (data cat : string) (cache : Cache) : Cache :=
  parseLines (nonEmptyLines data) cat cache.

Definition categoryNames : list string :=
  ["Space Station"; "Weather"; "Communications"; "Navigation"].

(** [fetchLatestTLEs], given what the four requests return: the text of a
    successful response, or nothing when the request fails or throws. *)
Definition fetchLatestTLEs (responses : list (option string)) (now : Z)
    (svc : Service) : Service :=
  if updateInProgress svc then svc
  else
    let cache :=
      fold_left
        (λ cache '(cat, response),
           match response with
           | Some data => parseTLEData data cat cache
           | None => cache
           end)
        (zip categoryNames responses) (tleCache svc) in
    let fetchSuccessful :=
      existsb (λ '(_, response), bool_decide (is_Some response))
        (zip categoryNames responses) in
    {| tleCache := cache;
       lastUpdate := if fetchSuccessful then Some now else lastUpdate svc;
       updateInProgress := false |}.

(** The service after a series of refreshes, each with what its requests
    return and the time it ends at. *)
Definition refreshes (rounds : list (list (option string) * Z))
    (svc : Service) : Service :=
  fold_left (λ svc '(responses, now), fetchLatestTLEs responses now svc)
    rounds svc.

End Parse.

Definition getAllSatellites (svc : Service) : list SatelliteInfo :=
  map snd (tleCache svc).

Definition getSatellite (id : string) (svc : Service) : option SatelliteInfo :=
  mapGet id (tleCache svc).

Definition getCacheSize (svc : Service) : nat := length (tleCache svc).

(** What the client keeps of the answer to [/api/satellites]:
    [data.satellites.slice(0, 2000)]. *)
Definition loadedCatalog (svc : Service) : list SatelliteInfo :=
  take 2000 (getAllSatellites svc).

(** The cache is keyed by the id of its entries, each key once. *)
Definition keyed (cache : Cache) : Prop :=
  NoDup (map fst cache) ∧ Forall (λ kv, noradId kv.2 = kv.1) cache.

End TleService.

(** ** Scenarios for the properties beyond the specification *)

Module Scenarios.
Import Store.
#[local] Open Scope R_scope.

(** [toLowerCase] and [trim] on ASCII text. *)
Definition lowerChar (c : Ascii.ascii) : Ascii.ascii :=
  let n := Ascii.nat_of_ascii c in
  if (65 <=? n)%nat && (n <=? 90)%nat then Ascii.ascii_of_nat (n + 32) else c.

Fixpoint asciiLower (s : string) : string :=
  match s with
  | EmptyString => EmptyString
  | String c rest => String (lowerChar c) (asciiLower rest)
  end.

Definition isSpace (c : Ascii.ascii) : bool :=
  let n := Ascii.nat_of_ascii c in
  (n =? 32)%nat || ((9 <=? n)%nat && (n <=? 13)%nat).

Fixpoint trimStart (s : string) : string :=
  match s with
  | EmptyString => EmptyString
  | String c rest => if isSpace c then trimStart rest else s
  end.

Fixpoint trimEnd (s : string) : string :=
  match s with
  | EmptyString => EmptyString
  | String c rest =>
      match trimEnd rest with
      | EmptyString => if isSpace c then EmptyString else String c EmptyString
      | kept => String c kept
      end
  end.

Definition asciiTrim (s : string) : string := trimEnd (trimStart s).

(** The client loaded with the built-in catalog of the server; the text
    NOAA typed into the search box. *)
Definition builtIn : SatelliteStore :=
  setSatellites TleService.sampleSatellites (initialStore 0).

Definition searchingNoaa : SatelliteStore :=
  StoreRest.setSearchQuery "NOAA" builtIn.

Definition noaa18 : SatelliteInfo :=
  default (Examples.sat "NOAA 18") (TleService.sampleSatellites !! 2%nat).

(** A is clicked in the list and compared, the deferred call fires, B is
    visited from the list, the Earth is clicked and compare mode is asked
    for again. *)
Definition clicks : list Handlers.Intent :=
  [ Handlers.ClickRow "A"; Handlers.PanelCompare; Handlers.TimerFires;
    Handlers.ClickVisit "B"; Handlers.EarthClick; Handlers.PanelCompare ].

(** The one-satellite catalog with the clock paused. *)
Definition pausedOne : SatelliteStore :=
  StoreRest.setPaused true Examples.storeOne.






(** A propagation that has a position at every time (the time itself
    stands for the point). *)
Definition sampleAll (t : Z) : TrailSamples.Sample Z := TrailSamples.At t.

(** The answer to the first request of a refresh: one record, with blank
    space around its lines and an empty line after it. *)
Definition newline : string := String (Ascii.ascii_of_nat 10) EmptyString.

Definition stationLine1 : string :=
  "1 99999U 24001A   24311.50000000  .00001234  00000-0  12345-4 0  9999".

Definition stationLine2 : string :=
  "2 99999  51.6400 208.9163 0006317  73.1467  99.8173 15.54225995123456".

Definition stationsText : string :=
  "NEW STATION  " +:+ newline +:+ stationLine1 +:+ " " +:+ newline
  +:+ "  " +:+ stationLine2 +:+ newline +:+ newline.

Definition newStation : SatelliteInfo :=
  TleService.entry "NEW STATION" "99999" stationLine1 stationLine2
    "Space Station" "Unknown" "Unknown".

Definition refreshed : TleService.Service :=
  TleService.refreshes asciiTrim (λ _, "Unknown") (λ _, "Unknown")
    [([Some stationsText; None; None; None], 1%Z)]
    (TleService.initializeWithSampleData 0).

End Scenarios.

(** * Properties *)

Lemma truthy_Some s : truthy (Some s) = true ↔ s ≠ EmptyString.
Proof.
  unfold truthy. destruct (String.eqb_spec s EmptyString) as [->|Hne]; simpl.
  - split; [discriminate | intros H; by destruct H].
  - split; [by intros _ | done].
Qed.

Lemma truthy_false_iff o : truthy o = false ↔ o = None ∨ o = Some EmptyString.
Proof.
  destruct o as [s|]; simpl.
  - destruct (String.eqb_spec s EmptyString) as [->|Hne]; simpl.
    + split; auto.
    + split; [discriminate | intros [H|H]; congruence].
  - split; auto.
Qed.

(** ** The store *)

Module StoreFacts.
Import Store.
#[local] Open Scope R_scope.

(** *** Selection and compare mode *)

(** C8.  Whatever the store holds, [setSelectedSatellite id] leaves compare
    mode off and the closest-satellite id and distance [null]; the selection
    is the given id and the other fields keep their values.  Hence after a
    selection compare mode does not drive the camera: a transition that
    ends then never settles in the compare view, and the visited object and
    compare mode are not both active. *)
Theorem C8_select_clears_compare (id : option string) (st : SatelliteStore) :
  let st' := setSelectedSatellite id st in
  closestSatelliteMode st' = false
  ∧ closestSatelliteId st' = None
  ∧ closestSatelliteDistance st' = None
  ∧ selectedSatellite st' = id
  ∧ visitedObject st' = visitedObject st
  ∧ ¬ (truthy (visitedObject st') = true ∧ closestSatelliteMode st' = true)
  ∧ CameraController.settledState st' ≠ CameraController.closest_satellite_view.
Proof.
  simpl. repeat split; try reflexivity.
  - intros [_ H]. discriminate H.
  - unfold CameraController.settledState. simpl.
    destruct (negb _); [discriminate|].
    destruct (bool_decide _); discriminate.
Qed.

(** *** [getRealtimePosition] *)

(** C10.  [getRealtimePosition] is a total function of the store and the
    id.  With a getter registered its result is the entry of the map the
    getter returns ([None] when absent), whatever the throttled map
    [satellitePositions] holds; without a getter it is the entry of the
    throttled map. *)
Theorem C10_getRealtimePosition_total (st : SatelliteStore) (id : string) :
  (∀ getter, realtimePositionGetter st = Some getter →
     getRealtimePosition st id = getter () !! id
     ∧ ∀ throttled, getRealtimePosition (setPositions throttled st) id
                    = getter () !! id)
  ∧ (realtimePositionGetter st = None →
     getRealtimePosition st id = satellitePositions st !! id).
Proof.
  unfold getRealtimePosition. split.
  - intros getter Hg. simpl. rewrite Hg. auto.
  - intros Hg. by rewrite Hg.
Qed.

(** *** The closest-object scan *)

Section Scan.

Variable st : SatelliteStore.
Variable selectedId : string.
Variable selectedPos : SatellitePosition.

Abbreviation candidate := (Store.candidate st selectedId).
Abbreviation scanned := (Store.scanned st selectedId selectedPos).

Lemma scanStep_skip acc sat :
  (∀ q, ¬ candidate sat q) → scanStep st selectedId selectedPos acc sat = acc.
Proof.
  intros Hno. unfold scanStep.
  destruct (String.eqb_spec (noradId sat) selectedId) as [|Hne]; [done|].
  destruct (getRealtimePosition st (noradId sat)) as [q|] eqn:Hq; [|done].
  destruct (Hno q). by split.
Qed.

Lemma scanStep_candidate acc sat q :
  candidate sat q →
  scanStep st selectedId selectedPos acc sat
  = if closer (distance3 q selectedPos) acc
    then Some (noradId sat, distance3 q selectedPos) else acc.
Proof.
  intros [Hne Hq]. unfold scanStep.
  destruct (String.eqb_spec (noradId sat) selectedId); [done|].
  by rewrite Hq.
Qed.

Lemma scanned_snoc l acc sat :
  scanned l acc →
  scanned (l ++ [sat]) (scanStep st selectedId selectedPos acc sat).
Proof.
  intros Hacc.
  destruct (decide (noradId sat = selectedId)) as [Heq|Hne].
  { rewrite scanStep_skip by (intros q [H _]; done).
    destruct acc as [[id d]|]; simpl in *.
    - destruct Hacc as (i & s & q & Hi & Hid & Hc & Hd & Hmin & Hfirst).
      exists i, s, q. split_and!; try done.
      + by apply lookup_app_l_Some.
      + intros j s' q' [[_ Hj]|[_ <-]]%lookup_snoc_Some Hc'; [eauto|].
        by destruct Hc'.
      + intros j s' q' Hlt [[_ Hj]|[_ <-]]%lookup_snoc_Some Hc'; [eauto|].
        by destruct Hc'.
    - intros s q [Hin| ->%list_elem_of_singleton]%elem_of_app; [eauto|].
      by intros [H _]. }
  destruct (getRealtimePosition st (noradId sat)) as [q|] eqn:Hq.
  2:{ rewrite scanStep_skip by (intros q [_ H]; congruence).
      destruct acc as [[id d]|]; simpl in *.
      - destruct Hacc as (i & s & q & Hi & Hid & Hc & Hd & Hmin & Hfirst).
        exists i, s, q. split_and!; try done.
        + by apply lookup_app_l_Some.
        + intros j s' q' [[_ Hj]|[_ <-]]%lookup_snoc_Some Hc'; [eauto|].
          destruct Hc'; congruence.
        + intros j s' q' Hlt [[_ Hj]|[_ <-]]%lookup_snoc_Some Hc'; [eauto|].
          destruct Hc'; congruence.
      - intros s q' [Hin| ->%list_elem_of_singleton]%elem_of_app; [eauto|].
        intros [_ H]; congruence. }
  assert (Hcand : candidate sat q) by done.
  rewrite (scanStep_candidate _ _ _ Hcand).
  destruct acc as [[id d]|]; simpl in *.
  - destruct Hacc as (i & s & q0 & Hi & Hid & Hc & Hd & Hmin & Hfirst).
    pose proof (lookup_lt_Some _ _ _ Hi) as Hlen.
    case_bool_decide as Hlt.
    + (* strictly closer than everything before: the new entry wins *)
      exists (length l), sat, q. split_and!; try done.
      * by apply list_lookup_middle.
      * intros j s' q' [[_ Hj]|[_ <-]]%lookup_snoc_Some Hc'.
        -- specialize (Hmin _ _ _ Hj Hc'). lra.
        -- destruct Hc' as [_ Hq']. rewrite Hq in Hq'.
           injection Hq' as <-. lra.
      * intros j s' q' Hj [[_ Hj']|[Hj' _]]%lookup_snoc_Some Hc'; [|lia].
        specialize (Hmin _ _ _ Hj' Hc'). lra.
    + exists i, s, q0. split_and!; try done.
      * by apply lookup_app_l_Some.
      * intros j s' q' [[_ Hj]|[_ <-]]%lookup_snoc_Some Hc'; [eauto|].
        destruct Hc' as [_ Hq']. rewrite Hq in Hq'.
        injection Hq' as <-. lra.
      * intros j s' q' Hji [[_ Hj]|[Hj _]]%lookup_snoc_Some Hc'; [eauto|lia].
  - exists (length l), sat, q. split_and!; try done.
    + by apply list_lookup_middle.
    + intros j s' q' [[Hj' Hj]|[_ <-]]%lookup_snoc_Some Hc'.
      * destruct (Hacc s' q'); [|done]. by eapply list_elem_of_lookup_2.
      * destruct Hc' as [_ Hq']. rewrite Hq in Hq'.
        injection Hq' as <-. lra.
    + intros j s' q' Hj [[_ Hj']|[Hj' _]]%lookup_snoc_Some Hc'; [|lia].
      destruct (Hacc s' q'); [|done]. by eapply list_elem_of_lookup_2.
Qed.

Lemma scanned_fold l :
  scanned l (fold_left (scanStep st selectedId selectedPos) l None).
Proof.
  induction l as [|sat l IH] using rev_ind.
  - simpl. intros sat q Hin. by apply elem_of_nil in Hin.
  - rewrite fold_left_app. simpl. by apply scanned_snoc.
Qed.

Lemma scan_scanned : scanned (satellites st) (scan st selectedId selectedPos).
Proof. apply scanned_fold. Qed.

End Scan.

Lemma distance_3_4_0 :
  distance3 (Examples.posAt 3 4 0) (Examples.posAt 0 0 0) = 5.
Proof.
  unfold distance3. simpl.
  replace ((3 - 0) * (3 - 0) + (4 - 0) * (4 - 0) + (0 - 0) * (0 - 0))
    with (5 * 5) by lra.
  apply sqrt_square. lra.
Qed.


Lemma resolvedA_eq :
  Examples.resolvedA
  = setClosestSatellite (Some "B")
      (Some (distance3 (Examples.posAt 3 4 0) (Examples.posAt 0 0 0)))
      Examples.comparingA.
Proof. reflexivity. Qed.



(** C2.  In the scenario of C1 the two satellites are 5 scene units apart,
    which is 5 / SCALE_FACTOR = 5000 km.  The detector stores the scene
    distance 5 itself, with no division by the scale factor, and the
    details panel prints that number as kilometres. *)
Theorem C2_distance_stored_in_scene_units :
  closestSatelliteDistance Examples.resolvedA = Some 5
  ∧ 5 / Satellites.SCALE_FACTOR = 5000
  ∧ closestSatelliteDistance Examples.resolvedA
    ≠ Some (5 / Satellites.SCALE_FACTOR)
  ∧ SatelliteDetails.formatDistance 5 = (5, 2%nat, SatelliteDetails.Kilometres).
Proof.
  assert (Hd : closestSatelliteDistance Examples.resolvedA = Some 5).
  { rewrite resolvedA_eq. simpl. by rewrite distance_3_4_0. }
  assert (Hkm : 5 / Satellites.SCALE_FACTOR = 5000).
  { unfold Satellites.SCALE_FACTOR. lra. }
  split_and!; try done.
  - rewrite Hd, Hkm. intros [=H]. lra.
  - unfold SatelliteDetails.formatDistance.
    repeat case_bool_decide; try done; lra.
Qed.

(** C6.  Compare mode is enabled with A selected, which schedules the
    deferred call, and is switched off before the call runs: the call
    still writes B and its distance into the closest-satellite fields,
    with compare mode off.  The same happens when B is selected in
    between: the call writes A as the closest satellite.  Only when the
    selection is cleared in between does the call leave the store alone. *)
Theorem C6_deferred_write_not_guarded :
  Examples.pendingA = [CallFindClosestSatellite]
  ∧ Examples.deselectedThenFired = setSelectedSatellite None Examples.comparingA
  ∧ closestSatelliteMode Examples.disabledThenFired = false
  ∧ closestSatelliteId Examples.disabledThenFired = Some "B"
  ∧ closestSatelliteDistance Examples.disabledThenFired = Some 5
  ∧ closestSatelliteMode Examples.reselectedThenFired = false
  ∧ closestSatelliteId Examples.reselectedThenFired = Some "A"
  ∧ closestSatelliteDistance Examples.reselectedThenFired = Some 5.
Proof.
  split_and!; try reflexivity.
  - change (Some (distance3 (Examples.posAt 3 4 0) (Examples.posAt 0 0 0))
            = Some 5).
    by rewrite distance_3_4_0.
  - change (Some (distance3 (Examples.posAt 0 0 0) (Examples.posAt 3 4 0))
            = Some 5).
    f_equal. unfold distance3. simpl.
    replace ((0 - 3) * (0 - 3) + (0 - 4) * (0 - 4) + (0 - 0) * (0 - 0))
      with (5 * 5) by lra.
    apply sqrt_square. lra.
Qed.

(** C9.  Requests that cannot be served leave the store as it is.
    Enabling compare mode with no selection returns the store unchanged
    and schedules nothing.  [findClosestSatellite] returns the store
    unchanged when nothing is selected, when the selected satellite has no
    position yet, and when no other catalog entry has a position. *)
Theorem C9_not_ready_is_noop (st : SatelliteStore) :
  (truthy (selectedSatellite st) = false →
     enableClosestSatelliteMode st = (st, [])
     ∧ findClosestSatellite st = st)
  ∧ (∀ selectedId,
       selectedSatellite st = Some selectedId →
       getRealtimePosition st selectedId = None →
       findClosestSatellite st = st)
  ∧ ((∀ sat, sat ∈ satellites st →
        selectedSatellite st ≠ Some (noradId sat) →
        getRealtimePosition st (noradId sat) = None) →
     findClosestSatellite st = st).
Proof.
  split_and!.
  - intros Hsel. split.
    + unfold enableClosestSatelliteMode. by rewrite Hsel.
    + unfold findClosestSatellite.
      destruct (selectedSatellite st) as [selectedId|]; [|done].
      by rewrite Hsel.
  - intros selectedId Hsel Hpos. unfold findClosestSatellite.
    rewrite Hsel, Hpos. by destruct (negb _).
  - intros Hnone. unfold findClosestSatellite.
    destruct (selectedSatellite st) as [selectedId|] eqn:Hsel; [|done].
    destruct (negb _); [done|].
    destruct (getRealtimePosition st selectedId) as [selectedPos|]; [|done].
    destruct (realtimePositionGetter st); [|done].
    pose proof (scan_scanned st selectedId selectedPos) as Hscan.
    destruct (scan st selectedId selectedPos) as [[id d]|]; [|done].
    destruct Hscan as (i & sat & q & Hi & _ & [Hn Hq] & _).
    rewrite Hnone in Hq; [done| |congruence].
    by eapply list_elem_of_lookup_2.
Qed.

(** C9 at three stores: nothing selected; C selected before it has a
    position; A selected with no other position in the buffer. *)
Lemma C9_witness :
  (enableClosestSatelliteMode Examples.storeAB = (Examples.storeAB, [])
   ∧ findClosestSatellite Examples.storeAB = Examples.storeAB)
  ∧ findClosestSatellite Examples.selectedC = Examples.selectedC
  ∧ findClosestSatellite Examples.aloneA = Examples.aloneA.
Proof.
  split; [|split].
  - exact (proj1 (C9_not_ready_is_noop Examples.storeAB) eq_refl).
  - exact (proj1 (proj2 (C9_not_ready_is_noop Examples.selectedC))
             "C" eq_refl eq_refl).
  - apply (proj2 (proj2 (C9_not_ready_is_noop Examples.aloneA))).
    intros sat Hin Hsel. simpl in Hin.
    apply elem_of_cons in Hin as [->|Hin]; [by destruct Hsel|].
    apply elem_of_cons in Hin as [->|Hin]; [reflexivity|].
    by apply elem_of_nil in Hin.
Defined.

(** C10 at the scenario's store, where the throttled map is empty and the
    getter's buffer holds B. *)
Lemma C10_witness :
  getRealtimePosition Examples.storeAB "B" = Some (Examples.posAt 3 4 0)
  ∧ satellitePositions Examples.storeAB !! "B" = None
  ∧ getRealtimePosition (initialStore 0) "B" = None.
Proof.
  split_and!.
  - exact (proj1 (proj1 (C10_getRealtimePosition_total Examples.storeAB "B")
                    (λ _, Examples.bufferAB) eq_refl)).
  - reflexivity.
  - exact (proj2 (C10_getRealtimePosition_total (initialStore 0) "B") eq_refl).
Defined.

End StoreFacts.

(** ** The propagation loop *)

Module SatellitesFacts.
Import Store Satellites.

Section Frame.

Variable SatRec : Type.
Variable twoline2satrec : string → string → option SatRec.
Variable propagate : SatRec → Z → option (EciVec3 * EciVec3).
Variable gstime : Z → R.
Variable eciToGeodetic : EciVec3 → R → GeodeticLocation.

Abbreviation processSatellite :=
  (processSatellite SatRec propagate gstime eciToGeodetic).
Abbreviation visualPosition := (visualPosition eciToGeodetic).
Abbreviation useFrame :=
  (useFrame SatRec twoline2satrec propagate gstime eciToGeodetic).
Abbreviation run := (run SatRec twoline2satrec propagate gstime eciToGeodetic).
Abbreviation satelliteData := (satelliteData SatRec twoline2satrec).
Abbreviation guardPasses := (guardPasses SatRec twoline2satrec).

(** *** The copy into the store *)

Lemma flush_union (buffer : PositionMap) (st : SatelliteStore) :
  flush buffer st = setPositions (buffer ∪ satellitePositions st) st.
Proof.
  unfold flush.
  apply (map_fold_weak_ind
           (λ r m, r = setPositions (m ∪ satellitePositions st) st)).
  - rewrite (left_id_L ∅ (∪)). by destruct st.
  - intros id pos m r Hfresh ->.
    unfold setSatellitePosition. simpl.
    by rewrite insert_union_l.
Qed.

(** *** One frame *)

Lemma useFrame_stopped meshRef refs st :
  ¬ guardPasses meshRef st → useFrame meshRef refs st = (refs, st, false).
Proof.
  intros Hguard. unfold Satellites.useFrame.
  destruct meshRef; [|done]. simpl.
  destruct (satelliteData (satellites st)) eqn:Hdata; [done|].
  destruct Hguard. split; [done|]. by rewrite Hdata.
Qed.

Lemma useFrame_active meshRef refs st :
  guardPasses meshRef st →
  let counter := (frameCounter refs + 1)%N in
  let buffer :=
    fold_left (processSatellite (currentTime st))
      (satelliteData (satellites st)) (localPositionBuffer refs) in
  let copied := (counter mod ZUSTAND_UPDATE_INTERVAL =? 0)%N in
  useFrame meshRef refs st
  = ({| localPositionBuffer := buffer; frameCounter := counter |},
     if copied then flush buffer st else st,
     copied).
Proof.
  intros [-> Hdata]. simpl. unfold Satellites.useFrame.
  destruct (satelliteData (satellites st)) eqn:Hd; [done|]. simpl.
  by destruct (_ =? 0)%N.
Qed.

Lemma useFrame_counter meshRef refs st :
  let counter := frameCounter (useFrame meshRef refs st).1.1 in
  (frameCounter refs <= counter <= frameCounter refs + 1)%N.
Proof.
  destruct (decide (guardPasses meshRef st)) as [Hg|Hg].
  - rewrite useFrame_active by done. simpl. lia.
  - rewrite useFrame_stopped by done. simpl. lia.
Qed.

Lemma useFrame_copied meshRef refs st :
  (useFrame meshRef refs st).2 = true →
  let counter := frameCounter (useFrame meshRef refs st).1.1 in
  counter = (frameCounter refs + 1)%N
  ∧ (counter mod ZUSTAND_UPDATE_INTERVAL = 0)%N.
Proof.
  destruct (decide (guardPasses meshRef st)) as [Hg|Hg].
  - rewrite useFrame_active by done. simpl.
    intros H%N.eqb_eq. done.
  - rewrite useFrame_stopped by done. done.
Qed.

(** *** Sequences of frames *)

Lemma run_cons f rest refs st :
  run (f :: rest) refs st
  = let r := useFrame (meshRef f) refs (intents f st) in
    let r' := run rest r.1.1 r.1.2 in
    (r'.1.1, r'.1.2, r.2 :: r'.2).
Proof.
  simpl. destruct (useFrame _ _ _) as [[refs1 st1] copied]. simpl.
  by destruct (run rest refs1 st1) as [[refs2 st2] log].
Qed.

(** A copy at frame [j] happens on a multiple of the interval that the
    counter reached within those [j + 1] frames. *)
Lemma run_copy_counter frames refs st j :
  (run frames refs st).2 !! j = Some true →
  ∃ c : N,
    (c mod ZUSTAND_UPDATE_INTERVAL = 0)%N
    ∧ (frameCounter refs < c <= frameCounter refs + N.of_nat j + 1)%N.
Proof.
  revert refs st j.
  induction frames as [|f rest IH]; intros refs st j; [done|].
  rewrite run_cons. cbv zeta. simpl.
  pose proof (useFrame_counter (meshRef f) refs (intents f st)) as Hc.
  destruct j as [|j]; simpl.
  - intros [=Hcopied].
    apply useFrame_copied in Hcopied as [Heq Hmod].
    eexists. split; [exact Hmod|]. simpl in *. lia.
  - intros Hj. apply IH in Hj as (c & Hmod & Hlt).
    exists c. split; [done|]. simpl in *. lia.
Qed.

Lemma run_copies_spaced frames refs st i j :
  (i < j)%nat →
  (run frames refs st).2 !! i = Some true →
  (run frames refs st).2 !! j = Some true →
  (i + N.to_nat ZUSTAND_UPDATE_INTERVAL <= j)%nat.
Proof.
  revert refs st i j.
  induction frames as [|f rest IH]; intros refs st i j Hij; [done|].
  rewrite run_cons. cbv zeta. simpl.
  destruct j as [|j]; [lia|].
  destruct i as [|i]; simpl.
  - intros [=Hcopied] Hj.
    apply useFrame_copied in Hcopied as [Heq Hmod].
    apply run_copy_counter in Hj as (c & Hmodc & Hlt).
    unfold ZUSTAND_UPDATE_INTERVAL in *.
    apply N.Div0.mod_divides in Hmod as [k Hk], Hmodc as [k' Hk'].
    simpl in *. lia.
  - intros Hi Hj.
    assert (i + N.to_nat ZUSTAND_UPDATE_INTERVAL <= j)%nat; [|lia].
    eapply IH; [|done..]. lia.
Qed.

(** *** One failing satellite *)

Lemma processSatellite_throws time buffer satData :
  propagate (satrec satData) time = None →
  processSatellite time buffer satData = buffer.
Proof. intros H. unfold Satellites.processSatellite. by rewrite H. Qed.

Lemma processSatellite_writes time buffer satData p v :
  propagate (satrec satData) time = Some (p, v) →
  processSatellite time buffer satData
  = <[noradId (info satData) := visualPosition p v (gstime time)]> buffer.
Proof. intros H. unfold Satellites.processSatellite. by rewrite H. Qed.

(** An id that no successfully propagated satellite of the list carries
    keeps its entry. *)
Lemma forEach_lookup_untouched time l buffer id :
  (∀ d, d ∈ l → noradId (info d) = id →
        propagate (satrec d) time = None) →
  fold_left (processSatellite time) l buffer !! id = buffer !! id.
Proof.
  revert buffer. induction l as [|a l IH]; intros buffer Hl; [done|].
  simpl. rewrite IH.
  - destruct (propagate (satrec a) time) as [[p v]|] eqn:Ha.
    + rewrite (processSatellite_writes _ _ _ _ _ Ha).
      apply lookup_insert_ne. intros Hid.
      specialize (Hl a (list_elem_of_here _ _) Hid). congruence.
    + by rewrite processSatellite_throws.
  - intros d Hd. apply Hl. by apply list_elem_of_further.
Qed.

(** With distinct ids, every satellite whose propagation succeeds gets
    its sample written, wherever the failures are in the list. *)
Lemma forEach_lookup_written time l buffer d p v :
  NoDup (map (λ d, noradId (info d)) l) →
  d ∈ l →
  propagate (satrec d) time = Some (p, v) →
  fold_left (processSatellite time) l buffer !! noradId (info d)
  = Some (visualPosition p v (gstime time)).
Proof.
  revert buffer. induction l as [|a l IH]; intros buffer Hnd Hin Hd.
  { by apply elem_of_nil in Hin. }
  simpl in Hnd. apply NoDup_cons in Hnd as [Hfresh Hnd].
  apply elem_of_cons in Hin as [<-|Hin]; simpl.
  - rewrite forEach_lookup_untouched.
    + rewrite (processSatellite_writes _ _ _ _ _ Hd).
      apply lookup_insert_eq.
    + intros d' Hd' Hid. destruct Hfresh.
      rewrite <- Hid. apply list_elem_of_fmap. by exists d'.
  - by apply IH.
Qed.

(** C5.  Let one satellite of the list throw in this frame.  The buffer
    after the loop is the buffer the loop gives on the list without that
    satellite: the loop goes on after the exception and the satellites
    before and after it are processed as if it were not there.  With
    distinct ids, each other satellite whose propagation succeeds has its
    new sample in the buffer, and the entry of the failing satellite is
    the one it had before the frame.  The same holds for the buffer the
    frame leaves in the component's ref. *)
Theorem C5_one_failure_leaves_others (time : Z)
    (before after : list (SatelliteData SatRec)) (bad : SatelliteData SatRec)
    (buffer : PositionMap) :
  propagate (satrec bad) time = None →
  let all := before ++ bad :: after in
  let result := fold_left (processSatellite time) all buffer in
  result = fold_left (processSatellite time) (before ++ after) buffer
  ∧ (NoDup (map (λ d, noradId (info d)) all) →
     (∀ d p v, d ∈ before ++ after →
        propagate (satrec d) time = Some (p, v) →
        result !! noradId (info d) = Some (visualPosition p v (gstime time)))
     ∧ result !! noradId (info bad) = buffer !! noradId (info bad))
  ∧ (∀ refs st,
       satelliteData (satellites st) = all →
       currentTime st = time →
       localPositionBuffer refs = buffer →
       localPositionBuffer (useFrame true refs st).1.1
       = fold_left (processSatellite time) (before ++ after) buffer).
Proof.
  intros Hbad all result.
  assert (Hskip : result
            = fold_left (processSatellite time) (before ++ after) buffer).
  { unfold result, all. rewrite !fold_left_app. simpl.
    by rewrite processSatellite_throws. }
  split_and!; [done| |].
  - intros Hnd. split.
    + intros d p v Hin Hd. unfold result.
      apply forEach_lookup_written; [done| |done].
      unfold all. apply elem_of_app in Hin as [Hin|Hin].
      * apply elem_of_app. by left.
      * apply elem_of_app. right. by apply list_elem_of_further.
    + unfold result. apply forEach_lookup_untouched.
      intros d Hin Hid.
      unfold all in Hnd, Hin.
      rewrite fmap_app, fmap_cons in Hnd.
      apply NoDup_app in Hnd as (_ & Hdisj & Hnd).
      apply NoDup_cons in Hnd as [Hfresh _].
      apply elem_of_app in Hin as [Hin|Hin].
      * destruct (Hdisj (noradId (info bad))).
        -- rewrite <- Hid. apply list_elem_of_fmap. by exists d.
        -- apply list_elem_of_here.
      * apply elem_of_cons in Hin as [->|Hin]; [done|].
        destruct Hfresh. rewrite <- Hid. apply list_elem_of_fmap. by exists d.
  - intros refs st Hdata Htime Hbuf.
    rewrite useFrame_active.
    + simpl. rewrite Hdata, Htime, Hbuf. exact Hskip.
    + split; [done|]. rewrite Hdata. unfold all. by destruct before.
Qed.

(** C4, as the code has it.  A frame that passes the guard (mesh
    mounted, at least one satellite loaded) adds one to the frame counter
    and copies the buffer into the store exactly when the new counter is
    a multiple of the interval; the copy puts every entry of the buffer
    into the store's map and changes nothing else, and without a copy
    the store is left alone.  A frame stopped by the guard changes
    neither the counter nor the store.  Over any sequence of frames, with
    anything happening to the store in between, two copies are at least
    one interval apart: a window of N consecutive frames holds at most
    one. *)
Theorem C4_copy_every_interval :
  (∀ meshRef refs st,
     guardPasses meshRef st →
     let r := useFrame meshRef refs st in
     frameCounter r.1.1 = (frameCounter refs + 1)%N
     ∧ r.2 = (frameCounter r.1.1 mod ZUSTAND_UPDATE_INTERVAL =? 0)%N
     ∧ (r.2 = true →
        r.1.2 = setPositions
                  (localPositionBuffer r.1.1 ∪ satellitePositions st) st
        ∧ ∀ id pos, localPositionBuffer r.1.1 !! id = Some pos →
                    satellitePositions r.1.2 !! id = Some pos)
     ∧ (r.2 = false → r.1.2 = st))
  ∧ (∀ meshRef refs st,
       ¬ guardPasses meshRef st →
       useFrame meshRef refs st = (refs, st, false))
  ∧ (∀ frames refs st i j,
       (i < j < i + N.to_nat ZUSTAND_UPDATE_INTERVAL)%nat →
       ¬ ((run frames refs st).2 !! i = Some true
          ∧ (run frames refs st).2 !! j = Some true)).
Proof.
  split_and!.
  - intros meshRef refs st Hg. rewrite useFrame_active by done.
    simpl. split_and!; try done.
    + intros ->. rewrite flush_union. split; [done|].
      intros id pos Hpos. simpl.
      by apply lookup_union_Some_l.
    + by intros ->.
  - apply useFrame_stopped.
  - intros frames refs st i j [Hij Hj] [Hci Hcj].
    pose proof (run_copies_spaced frames refs st i j Hij Hci Hcj). lia.
Qed.

End Frame.

(** C4 as stated fails on a frame stopped by the guard.  With no satellite
    loaded the frame leaves the counter at 59 instead of 60; and with the
    counter at 60, a multiple of the interval, the frame copies nothing. *)
Lemma C4_counterexample :
  frameCounter
    (Examples.useFrameFlag true (Examples.refsAt 59) (initialStore 0)).1.1
  ≠ (59 + 1)%N
  ∧ (let r := Examples.useFrameFlag true (Examples.refsAt 60) (initialStore 0) in
     (frameCounter r.1.1 mod ZUSTAND_UPDATE_INTERVAL = 0)%N ∧ r.2 = false).
Proof. split; [discriminate | split; reflexivity]. Qed.

(** C4 on concrete frames: the 60th frame of a loaded catalog copies, a
    frame with an empty catalog does nothing, and two frames in a row do
    not both copy. *)
Lemma C4_witness :
  (let r := Examples.useFrameFlag true (Examples.refsAt 59) Examples.storeOne in
   frameCounter r.1.1 = 60%N ∧ r.2 = true)
  ∧ Examples.useFrameFlag true (Examples.refsAt 59) (initialStore 0)
    = (Examples.refsAt 59, initialStore 0, false)
  ∧ ¬ ((Examples.runFlag Examples.twoFrames (Examples.refsAt 59)
          Examples.storeOne).2 !! 0%nat = Some true
       ∧ (Examples.runFlag Examples.twoFrames (Examples.refsAt 59)
            Examples.storeOne).2 !! 1%nat = Some true).
Proof.
  destruct (C4_copy_every_interval bool Examples.parseFlag
              Examples.propagateFlag (λ _, 0%R) Examples.geodeticFlag)
    as (Hactive & Hstopped & Hspaced).
  split; [|split].
  - destruct (Hactive true (Examples.refsAt 59) Examples.storeOne)
      as (Hc & Hcopied & _).
    + split; [reflexivity | discriminate].
    + split; [exact Hc | exact Hcopied].
  - apply Hstopped. intros [_ Hdata]. by apply Hdata.
  - apply Hspaced. unfold ZUSTAND_UPDATE_INTERVAL. simpl. lia.
Defined.

(** C5 on three satellites of which the middle one throws. *)
Lemma C5_witness :
  let result := fold_left (Examples.processFlag 0) Examples.dataAXB ∅ in
  result
  = fold_left (Examples.processFlag 0)
      [Examples.flagData "A" true; Examples.flagData "B" true] ∅
  ∧ result !! "B"
    = Some (visualPosition Examples.geodeticFlag Examples.fixedPosition
              Examples.fixedVelocity 0)
  ∧ result !! "X" = None.
Proof.
  destruct (C5_one_failure_leaves_others bool Examples.parseFlag
              Examples.propagateFlag (λ _, 0%R) Examples.geodeticFlag
              0 [Examples.flagData "A" true] [Examples.flagData "B" true]
              (Examples.flagData "X" false) ∅ eq_refl)
    as (Hskip & Hother & _).
  destruct Hother as [Hwritten Hstale].
  { by apply (bool_decide_unpack _). }
  split; [exact Hskip|]. split; [|exact Hstale].
  apply (Hwritten (Examples.flagData "B" true)); [|reflexivity].
  apply elem_of_cons. right. apply list_elem_of_here.
Defined.

End SatellitesFacts.

(** ** The camera transition *)

Module CameraFacts.
Import Store CameraController.
#[local] Open Scope R_scope.










End CameraFacts.

(** ** Trail level of detail *)

Module TrailFacts.
Import SatelliteTrails.
#[local] Open Scope Q_scope.

Lemma Qltb_lt a b : Qltb a b = true ↔ a < b.
Proof.
  unfold Qltb. rewrite negb_true_iff, <- not_true_iff_false, Qle_bool_iff.
  split; [apply Qnot_le_lt | apply Qlt_not_le].
Qed.

Lemma Qltb_ge a b : Qltb a b = false ↔ b <= a.
Proof.
  unfold Qltb. rewrite negb_false_iff. apply Qle_bool_iff.
Qed.

Lemma interpolation_eq d :
  inject_Z MAX_TRAIL_SEGMENTS
  - (d - LOD_NEAR_DISTANCE) / (LOD_FAR_DISTANCE - LOD_NEAR_DISTANCE)
    * inject_Z (MAX_TRAIL_SEGMENTS - MIN_TRAIL_SEGMENTS)
  == interpolated d.
Proof.
  unfold interpolated, MAX_TRAIL_SEGMENTS, MIN_TRAIL_SEGMENTS,
    LOD_NEAR_DISTANCE, LOD_FAR_DISTANCE.
  change (inject_Z 100) with 100. change (inject_Z (100 - 10)) with 90.
  field.
Qed.

Lemma falloff_eq d :
  inject_Z MIN_TRAIL_SEGMENTS
  * (1 - (d - LOD_FAR_DISTANCE) / (MAX_VISIBLE_DISTANCE - LOD_FAR_DISTANCE))
  == fallingOff d.
Proof.
  unfold fallingOff, MIN_TRAIL_SEGMENTS, MAX_VISIBLE_DISTANCE,
    LOD_FAR_DISTANCE.
  change (inject_Z 10) with 10.
  field.
Qed.

(** The four branches of [newSegments]. *)
Lemma newSegments_beyond d :
  MAX_VISIBLE_DISTANCE < d → newSegments d = 0%Z.
Proof.
  intros H%Qltb_lt. unfold newSegments. by rewrite H.
Qed.

Lemma newSegments_near d :
  d < LOD_NEAR_DISTANCE → newSegments d = MAX_TRAIL_SEGMENTS.
Proof.
  intros H. unfold newSegments.
  assert (Qltb MAX_VISIBLE_DISTANCE d = false) as ->.
  { apply Qltb_ge. unfold LOD_NEAR_DISTANCE, MAX_VISIBLE_DISTANCE in *. lra. }
  apply Qltb_lt in H. by rewrite H.
Qed.

Lemma newSegments_interpolated d :
  LOD_NEAR_DISTANCE <= d → d < LOD_FAR_DISTANCE →
  newSegments d = Qfloor (interpolated d).
Proof.
  intros Hnear Hfar. unfold newSegments.
  assert (Qltb MAX_VISIBLE_DISTANCE d = false) as ->.
  { apply Qltb_ge. unfold LOD_FAR_DISTANCE, MAX_VISIBLE_DISTANCE in *. lra. }
  apply Qltb_ge in Hnear as ->. apply Qltb_lt in Hfar as ->.
  apply Qfloor_comp, interpolation_eq.
Qed.

Lemma newSegments_falloff d :
  LOD_FAR_DISTANCE <= d → d <= MAX_VISIBLE_DISTANCE →
  newSegments d = Z.max 0 (Qfloor (fallingOff d)).
Proof.
  intros Hfar Hvis. unfold newSegments.
  apply Qltb_ge in Hvis as ->.
  assert (Qltb d LOD_NEAR_DISTANCE = false) as ->.
  { apply Qltb_ge. unfold LOD_FAR_DISTANCE, LOD_NEAR_DISTANCE in *. lra. }
  apply Qltb_ge in Hfar as ->.
  f_equal. apply Qfloor_comp, falloff_eq.
Qed.

(** The count stays between the bounds of its branch. *)
Lemma interpolated_bounds d :
  LOD_NEAR_DISTANCE <= d → d < LOD_FAR_DISTANCE →
  (MIN_TRAIL_SEGMENTS <= Qfloor (interpolated d) <= MAX_TRAIL_SEGMENTS)%Z.
Proof.
  unfold LOD_NEAR_DISTANCE, LOD_FAR_DISTANCE, MIN_TRAIL_SEGMENTS,
    MAX_TRAIL_SEGMENTS. intros Hnear Hfar. split.
  - rewrite <- (Qfloor_Z 10). apply Qfloor_resp_le.
    unfold interpolated. change (inject_Z 10) with 10. lra.
  - rewrite <- (Qfloor_Z 100). apply Qfloor_resp_le.
    unfold interpolated. change (inject_Z 100) with 100. lra.
Qed.

Lemma falloff_bounds d :
  LOD_FAR_DISTANCE <= d →
  (0 <= Z.max 0 (Qfloor (fallingOff d)) <= MIN_TRAIL_SEGMENTS)%Z.
Proof.
  unfold LOD_FAR_DISTANCE, MIN_TRAIL_SEGMENTS. intros Hfar.
  assert (Qfloor (fallingOff d) <= 10)%Z; [|lia].
  rewrite <- (Qfloor_Z 10). apply Qfloor_resp_le.
  unfold fallingOff. change (inject_Z 10) with 10. lra.
Qed.

Lemma region d : Region d.
Proof.
  destruct (Qlt_le_dec d LOD_NEAR_DISTANCE); [by apply Near|].
  destruct (Qlt_le_dec d LOD_FAR_DISTANCE); [by apply Interpolating|].
  destruct (Qlt_le_dec MAX_VISIBLE_DISTANCE d); [by apply Beyond|].
  by apply FallingOff.
Qed.

Lemma newSegments_nonneg d : (0 <= newSegments d)%Z.
Proof.
  destruct (region d) as [H|H1 H2|H1 H2|H].
  - rewrite newSegments_near by done. done.
  - rewrite newSegments_interpolated by done.
    pose proof (interpolated_bounds d H1 H2).
    unfold MIN_TRAIL_SEGMENTS in *. lia.
  - rewrite newSegments_falloff by done.
    pose proof (falloff_bounds d H1). lia.
  - rewrite newSegments_beyond by done. done.
Qed.

Lemma newSegments_monotone d1 d2 :
  LOD_NEAR_DISTANCE <= d1 → d1 <= d2 →
  (newSegments d2 <= newSegments d1)%Z.
Proof.
  intros Hnear Hle.
  destruct (region d2) as [H|H1 H2|H1 H2|H].
  - exfalso. unfold LOD_NEAR_DISTANCE in *. lra.
  - assert (d1 < LOD_FAR_DISTANCE) by (unfold LOD_FAR_DISTANCE in *; lra).
    rewrite !newSegments_interpolated by done.
    apply Qfloor_resp_le. unfold interpolated. lra.
  - rewrite (newSegments_falloff d2) by done.
    pose proof (falloff_bounds d2 H1) as Hb2.
    destruct (Qlt_le_dec d1 LOD_FAR_DISTANCE) as [Hd1|Hd1].
    + rewrite newSegments_interpolated by done.
      pose proof (interpolated_bounds d1 Hnear Hd1). lia.
    + assert (d1 <= MAX_VISIBLE_DISTANCE)
        by (unfold MAX_VISIBLE_DISTANCE in *; lra).
      rewrite newSegments_falloff by done.
      apply Z.max_le_compat_l, Qfloor_resp_le. unfold fallingOff. lra.
  - rewrite (newSegments_beyond d2) by done. apply newSegments_nonneg.
Qed.

(** C7.  Below the near threshold the sample count is the maximum; from
    the near threshold on it never grows with the distance, through the
    interpolation between the maximum and the minimum, the falloff from the
    minimum and the zero beyond the visible range; and it is never
    negative. *)
Theorem C7_lod_samples :
  (∀ d, d < LOD_NEAR_DISTANCE → newSegments d = MAX_TRAIL_SEGMENTS)
  ∧ (∀ d1 d2, LOD_NEAR_DISTANCE <= d1 → d1 <= d2 →
       (newSegments d2 <= newSegments d1)%Z)
  ∧ (∀ d, LOD_NEAR_DISTANCE <= d → d < LOD_FAR_DISTANCE →
       (MIN_TRAIL_SEGMENTS <= newSegments d <= MAX_TRAIL_SEGMENTS)%Z)
  ∧ (∀ d, LOD_FAR_DISTANCE <= d → d <= MAX_VISIBLE_DISTANCE →
       (0 <= newSegments d <= MIN_TRAIL_SEGMENTS)%Z)
  ∧ (∀ d, MAX_VISIBLE_DISTANCE < d → newSegments d = 0%Z)
  ∧ (∀ d, (0 <= newSegments d)%Z).
Proof.
  split_and!.
  - apply newSegments_near.
  - apply newSegments_monotone.
  - intros d H1 H2. rewrite newSegments_interpolated by done.
    by apply interpolated_bounds.
  - intros d H1 H2. rewrite newSegments_falloff by done.
    by apply falloff_bounds.
  - apply newSegments_beyond.
  - apply newSegments_nonneg.
Qed.

(** C7 at sample distances: 10 is near, 15 and 32.5 interpolate, 50 and 75
    fall off, 101 is out of sight. *)
Lemma C7_witness :
  newSegments 10 = 100%Z
  ∧ (newSegments (65 # 2) <= newSegments 15)%Z
  ∧ (10 <= newSegments (65 # 2) <= 100)%Z
  ∧ (0 <= newSegments 75 <= 10)%Z
  ∧ newSegments 101 = 0%Z.
Proof.
  destruct C7_lod_samples as (Hnear & Hmono & Hinterp & Hfall & Hbeyond & _).
  split; [|split; [|split; [|split]]].
  - apply Hnear. reflexivity.
  - apply Hmono; discriminate.
  - apply Hinterp; [discriminate|reflexivity].
  - apply Hfall; discriminate.
  - apply Hbeyond. reflexivity.
Defined.

Example newSegments_values :
  map newSegments [0; 10; 15; 20; 65 # 2; 499 # 10; 50; 75; 99; 100; 101]
  = [100; 100; 100; 87; 55; 10; 10; 5; 0; 0; 0]%Z.
Proof. reflexivity. Qed.

End TrailFacts.


(** ** Filters of the list panel *)

Module FilterFacts.
Import Store StoreRest.

Lemma filter_sublist {A} (f : A → bool) (l : list A) :
  sublist (List.filter f l) l.
Proof.
  induction l as [|a l IH]; simpl; [constructor|].
  destruct (f a); by constructor.
Qed.

Lemma includes_empty s : includes s EmptyString = true.
Proof. by destruct s. Qed.

Lemma negb_or_implies (a b : bool) :
  negb a || b = true ↔ (a = true → b = true).
Proof. destruct a, b; simpl; intuition congruence. Qed.

Section Filtering.

Variable toLowerCase : string → string.

Abbreviation getFilteredSatellites := (getFilteredSatellites toLowerCase).
Abbreviation matchesQuery := (matchesQuery toLowerCase).
Abbreviation passes := (passes toLowerCase).

Lemma getFilteredSatellites_passes st :
  getFilteredSatellites st = List.filter (passes st) (satellites st).
Proof.
  unfold StoreRest.getFilteredSatellites, StoreRest.passes.
  generalize (satellites st) as l. intros l.
  destruct (truthy (Some (searchQuery st))),
    (truthy (filterCategory st)), (truthy (filterOperator st)); simpl;
    induction l as [|a l IH]; simpl; try done;
    repeat (match goal with
            | |- context [if ?b then _ else _] => destruct b eqn:?
            end; simpl; try done);
    try (f_equal; done); try congruence.
Qed.

Lemma passes_iff st sat :
  passes st sat = true ↔
  (searchQuery st ≠ EmptyString →
   includes (toLowerCase (name sat)) (toLowerCase (searchQuery st)) = true
   ∨ includes (noradId sat) (toLowerCase (searchQuery st)) = true)
  ∧ (truthy (filterCategory st) = true → category sat = filterCategory st)
  ∧ (truthy (filterOperator st) = true → operator sat = filterOperator st).
Proof.
  unfold StoreRest.passes, StoreRest.matchesQuery, inCategory, byOperator.
  rewrite !andb_true_iff, !negb_or_implies, !orb_true_iff,
    !bool_decide_eq_true, truthy_Some.
  tauto.
Qed.

(** X1.  The filtered list is the catalog restricted, in catalog order, to the
    entries that pass every active filter: the name in lower case or the
    id contains the query in lower case, the category is the selected
    one, the operator is the selected one.  A filter whose field is empty
    or [null] lets everything through, and with no filter set the list is
    the whole catalog. *)
Theorem filtered_satellites_are_the_matching_entries (st : SatelliteStore) :
  sublist (getFilteredSatellites st) (satellites st)
  ∧ (∀ sat,
       sat ∈ getFilteredSatellites st ↔
       sat ∈ satellites st
       ∧ (searchQuery st ≠ EmptyString →
          includes (toLowerCase (name sat)) (toLowerCase (searchQuery st))
          = true
          ∨ includes (noradId sat) (toLowerCase (searchQuery st)) = true)
       ∧ (truthy (filterCategory st) = true →
          category sat = filterCategory st)
       ∧ (truthy (filterOperator st) = true →
          operator sat = filterOperator st))
  ∧ (searchQuery st = EmptyString →
     truthy (filterCategory st) = false →
     truthy (filterOperator st) = false →
     getFilteredSatellites st = satellites st).
Proof.
  rewrite getFilteredSatellites_passes. split_and!.
  - apply filter_sublist.
  - intros sat. rewrite list_elem_of_In, filter_In, <- list_elem_of_In.
    by rewrite passes_iff.
  - intros Hq Hc Ho.
    assert (∀ sat, passes st sat = true) as Hall.
    { intros sat. unfold StoreRest.passes. rewrite Hq, Hc, Ho. done. }
    generalize (satellites st) as l.
    induction l as [|a l IH]; simpl; [done|].
    by rewrite Hall, IH.
Qed.

Lemma elem_of_filtered st sat :
  sat ∈ getFilteredSatellites st ↔ sat ∈ satellites st ∧ passes st sat = true.
Proof.
  by rewrite getFilteredSatellites_passes, list_elem_of_In, filter_In,
    <- list_elem_of_In.
Qed.

Lemma categories_spec (sats : list SatelliteInfo) :
  NoDup (SatelliteList.categories sats)
  ∧ ∀ c, c ∈ SatelliteList.categories sats ↔
         c ≠ EmptyString ∧ ∃ sat, sat ∈ sats ∧ category sat = Some c.
Proof.
  unfold SatelliteList.categories.
  induction sats as [|a sats [IHnd IHin]] using rev_ind.
  - simpl. split; [constructor|].
    intros c. split; [by intros ?%elem_of_nil|].
    by intros (_ & sat & ?%elem_of_nil & _).
  - rewrite fold_left_app. simpl.
    set (cats := fold_left SatelliteList.addCategory sats []) in *.
    unfold SatelliteList.addCategory.
    assert (Hkeep : ∀ c, (c ≠ EmptyString
                          ∧ ∃ sat, sat ∈ sats ∧ category sat = Some c) →
                         c ≠ EmptyString
                         ∧ ∃ sat, sat ∈ sats ++ [a] ∧ category sat = Some c).
    { intros c (Hc & sat & Hin & Hcat). split; [done|].
      exists sat. split; [|done]. apply elem_of_app. by left. }
    destruct (category a) as [ca|] eqn:Hca.
    2:{ split; [done|]. intros c. rewrite IHin. split; [apply Hkeep|].
        intros (Hc & sat & [Hin| ->%list_elem_of_singleton]%elem_of_app & Hcat);
          [eauto|congruence]. }
    destruct (truthy (Some ca)) eqn:Htr.
    2:{ split; [done|]. intros c. rewrite IHin. split; [apply Hkeep|].
        intros (Hc & sat & [Hin| ->%list_elem_of_singleton]%elem_of_app & Hcat);
          [eauto|].
        assert (c = ca) as -> by congruence.
        apply truthy_Some in Hc. congruence. }
    apply truthy_Some in Htr.
    case_bool_decide as Hmem.
    + split; [done|]. intros c. rewrite IHin. split; [apply Hkeep|].
      intros (Hc & sat & [Hin| ->%list_elem_of_singleton]%elem_of_app & Hcat);
        [eauto|].
      assert (c = ca) as -> by congruence. by apply IHin.
    + split.
      * apply NoDup_app. split_and!; [done| |apply NoDup_singleton].
        intros c Hc ->%list_elem_of_singleton. done.
      * intros c. rewrite elem_of_app, list_elem_of_singleton, IHin. split.
        -- intros [H| ->]; [by apply Hkeep|]. split; [done|].
           exists a. split; [|done]. apply elem_of_app. right.
           by apply list_elem_of_singleton.
        -- intros (Hc & sat
                   & [Hin| ->%list_elem_of_singleton]%elem_of_app & Hcat).
           ++ left. eauto.
           ++ right. congruence.
Qed.

(** X2.  The categories offered by the filter menu are the non-empty categories
    that occur in the catalog, each listed once.  Choosing any of them,
    with no search text and no operator filter, never leaves the list
    empty. *)
Theorem offered_categories_match_the_catalog (st : SatelliteStore) :
  NoDup (SatelliteList.categories (satellites st))
  ∧ (∀ c, c ∈ SatelliteList.categories (satellites st) ↔
          c ≠ EmptyString
          ∧ ∃ sat, sat ∈ satellites st ∧ category sat = Some c)
  ∧ (∀ c, c ∈ SatelliteList.categories (satellites st) →
          searchQuery st = EmptyString →
          truthy (filterOperator st) = false →
          getFilteredSatellites (setFilterCategory (Some c) st) ≠ []).
Proof.
  destruct (categories_spec (satellites st)) as [Hnd Hin].
  split_and!; [done|done|].
  intros c (Hc & sat & Hsat & Hcat)%Hin Hq Hop Hempty.
  assert (sat ∈ getFilteredSatellites (setFilterCategory (Some c) st)) as He.
  { apply elem_of_filtered. split; [done|]. apply passes_iff. simpl.
    split_and!; [congruence|done|by rewrite Hop]. }
  rewrite Hempty in He. by apply elem_of_nil in He.
Qed.

End Filtering.

(** The filter at the built-in catalog: NOAA 18 is listed for the search
    text NOAA, and the category Weather, which the menu offers, leaves a
    list that is not empty. *)
Lemma filtered_satellites_witness :
  Scenarios.noaa18
  ∈ getFilteredSatellites Scenarios.asciiLower Scenarios.searchingNoaa.
Proof.
  destruct (filtered_satellites_are_the_matching_entries
              Scenarios.asciiLower Scenarios.searchingNoaa) as (_ & Hiff & _).
  apply Hiff. split_and!.
  - apply list_elem_of_lookup. by exists 2%nat.
  - intros _. left. reflexivity.
  - discriminate.
  - discriminate.
Defined.

Lemma offered_categories_witness :
  getFilteredSatellites Scenarios.asciiLower
    (setFilterCategory (Some "Weather") Scenarios.builtIn) ≠ [].
Proof.
  destruct (offered_categories_match_the_catalog
              Scenarios.asciiLower Scenarios.builtIn) as (_ & _ & H).
  apply H; [|reflexivity|reflexivity].
  by apply (bool_decide_unpack _).
Defined.

End FilterFacts.

(** ** The selection through the panels *)

Module HandlerFacts.
Import Store StoreRest Handlers.

Lemma findClosestSatellite_cases st :
  findClosestSatellite st = st
  ∨ ∃ id d, findClosestSatellite st = setClosestSatellite id d st.
Proof.
  unfold findClosestSatellite. repeat case_match; eauto.
Qed.

Lemma findClosestSatellite_keeps st :
  closestSatelliteMode (findClosestSatellite st) = closestSatelliteMode st
  ∧ visitedObject (findClosestSatellite st) = visitedObject st
  ∧ selectedSatellite (findClosestSatellite st) = selectedSatellite st.
Proof.
  destruct (findClosestSatellite_cases st) as [->|(id & d & ->)]; done.
Qed.

Lemma detailsShown_selected st :
  detailsShown st = true → truthy (selectedSatellite st) = true.
Proof. unfold detailsShown. by intros [? _]%andb_true_iff. Qed.

Lemma applyIntent_coherent i st : coherent st → coherent (applyIntent i st).
Proof.
  intros [Hv Hs]. destruct i; simpl.
  - split; discriminate.
  - unfold SatelliteList.clickVisit. case_bool_decide; simpl.
    + split; [done|]. exact Hs.
    + split; discriminate.
  - split; [exact Hv | exact Hs].
  - destruct (detailsShown st); [split; simpl; discriminate | by split].
  - destruct (detailsShown st && negb (closestSatelliteMode st)) eqn:Hc;
      [|by split].
    apply andb_true_iff in Hc as [_ Hm%negb_true_iff].
    unfold handleVisit. case_bool_decide; split; simpl; intros; congruence.
  - destruct (detailsShown st) eqn:Hd; [|by split].
    apply detailsShown_selected in Hd.
    unfold handleClosestSatellite.
    destruct (closestSatelliteMode st) eqn:Hm; simpl; [split; discriminate|].
    unfold enableClosestSatelliteMode. rewrite Hd. simpl.
    destruct (truthy (visitedObject st)) eqn:Hvis; simpl; split; simpl;
      by intros _.
  - destruct (truthy (visitedObject st)) eqn:Hvis;
      [split; simpl; discriminate | by split].
  - case_bool_decide; [by split | split; simpl; discriminate].
  - split; simpl; discriminate.
  - destruct (findClosestSatellite_keeps st) as (Hm & Hvis & Hsel).
    unfold coherent. rewrite Hm, Hvis, Hsel. by split.
Qed.

(** X3.  From a coherent store, and the initial store is one, every sequence
    of clicks in the list, the details panel, the navigation bar and on
    the Earth, with the deferred closest-satellite call firing anywhere
    in between, leaves a store in which compare mode is on only when
    nothing is visited and something is selected. *)
Theorem intents_keep_visit_and_compare_apart
    (intents : list Intent) (st : SatelliteStore) :
  coherent st →
  let st' := foldl (λ s i, applyIntent i s) st intents in
  (closestSatelliteMode st' = true → truthy (visitedObject st') = false)
  ∧ (closestSatelliteMode st' = true → truthy (selectedSatellite st') = true).
Proof.
  revert st. induction intents as [|i intents IH]; intros st Hst; [done|].
  simpl. apply IH. by apply applyIntent_coherent.
Qed.

(** X4.  The orbit class shown for an altitude: low below 2000 km, medium from
    2000 km to below 35786 km, geostationary from 35786 km to below
    36000 km, high from 36000 km on. *)
Theorem orbital_type_bands (alt : R) :
  (getOrbitalType alt = LEO ↔ (alt < 2000)%R)
  ∧ (getOrbitalType alt = MEO ↔ (2000 <= alt < 35786)%R)
  ∧ (getOrbitalType alt = GEO ↔ (35786 <= alt < 36000)%R)
  ∧ (getOrbitalType alt = HEO ↔ (36000 <= alt)%R).
Proof.
  unfold getOrbitalType.
  repeat case_bool_decide; simpl; split_and!; split;
    try discriminate; try done; intros; lra.
Qed.

(** The scenario of clicks, from the store of the two satellites. *)
Lemma intents_witness :
  coherent Examples.storeAB
  ∧ let st' := foldl (λ s i, applyIntent i s) Examples.storeAB
                 Scenarios.clicks in
    (closestSatelliteMode st' = true → truthy (visitedObject st') = false)
    ∧ (closestSatelliteMode st' = true
       → truthy (selectedSatellite st') = true).
Proof.
  assert (H : coherent Examples.storeAB) by (split; simpl; discriminate).
  split; [exact H|].
  exact (intents_keep_visit_and_compare_apart Scenarios.clicks
           Examples.storeAB H).
Defined.

End HandlerFacts.

(** ** The clock *)

Module ClockFacts.
Import Store StoreRest TimeControls.
#[local] Open Scope R_scope.

Lemma Int_part_IZR (z : Z) : Int_part (IZR z) = z.
Proof. symmetry. apply Int_part_spec. lra. Qed.

Lemma truncate_IZR (z : Z) : truncate (IZR z) = z.
Proof.
  unfold truncate. case_bool_decide.
  - apply Int_part_IZR.
  - rewrite <- opp_IZR, Int_part_IZR. lia.
Qed.

Lemma tick_paused st : isPaused st = true → tick st = st.
Proof. intros H. unfold tick. by rewrite H. Qed.

Lemma tick_running st (k : Z) :
  isPaused st = false → timeSpeed st = IZR k →
  tick st = setCurrentTime (currentTime st + 100 * k) st.
Proof.
  intros Hp Hk. unfold tick. rewrite Hp, Hk. simpl. f_equal.
  rewrite <- mult_IZR, <- plus_IZR. apply truncate_IZR.
Qed.

(** X5.  While the clock is paused the 100 ms ticks leave the whole store as it
    is.  While it runs at a whole speed [k], each tick adds [100 * k]
    milliseconds to the simulated time and changes nothing else, so [n]
    ticks add [100 * k * n].  After a reset the clock runs at speed 1 from
    the wall-clock time. *)
Theorem clock_ticks (n : nat) (st : SatelliteStore) :
  (isPaused st = true → ticks n st = st)
  ∧ (∀ k : Z, isPaused st = false → timeSpeed st = IZR k →
       ticks n st
       = setCurrentTime (currentTime st + 100 * k * Z.of_nat n) st)
  ∧ (∀ now : Z,
       ticks n (handleReset now st)
       = setPaused false (setTimeSpeed 1 (setCurrentTime
                                            (now + 100 * Z.of_nat n) st))).
Proof.
  assert (Hrun : ∀ n st (k : Z), isPaused st = false → timeSpeed st = IZR k →
            ticks n st
            = setCurrentTime (currentTime st + 100 * k * Z.of_nat n) st).
  { clear. induction n as [|n IH]; intros st k Hp Hk.
    - simpl. rewrite Z.mul_0_r, Z.add_0_r. by destruct st.
    - simpl ticks. rewrite (tick_running st k Hp Hk).
      rewrite (IH _ k) by done. unfold setCurrentTime, setClock. simpl.
      f_equal. lia. }
  split_and!.
  - intros Hp. induction n as [|n IH]; [done|].
    simpl. by rewrite tick_paused.
  - apply Hrun.
  - intros now. rewrite (Hrun n _ 1%Z) by done.
    unfold handleReset, setPaused, setTimeSpeed, setCurrentTime, setClock.
    simpl. f_equal.
Qed.

(** Three ticks of the initial store, which runs at speed 1, and five
    ticks of a paused one. *)
Lemma clock_witness :
  ticks 3 (initialStore 0) = setCurrentTime 300 (initialStore 0)
  ∧ ticks 5 (setPaused true (initialStore 0))
    = setPaused true (initialStore 0).
Proof.
  split.
  - exact (proj1 (proj2 (clock_ticks 3 (initialStore 0))) 1%Z eq_refl eq_refl).
  - exact (proj1 (clock_ticks 5 (setPaused true (initialStore 0))) eq_refl).
Defined.

End ClockFacts.

(** ** Frames at a standstill, and where a sample lies *)

Module FrameFacts.
Import Store Satellites LastWrite.
#[local] Open Scope R_scope.

Section Frame.

Variable SatRec : Type.
Variable twoline2satrec : string → string → option SatRec.
Variable propagate : SatRec → Z → option (EciVec3 * EciVec3).
Variable gstime : Z → R.
Variable eciToGeodetic : EciVec3 → R → GeodeticLocation.

Abbreviation processSatellite :=
  (processSatellite SatRec propagate gstime eciToGeodetic).
Abbreviation useFrame :=
  (useFrame SatRec twoline2satrec propagate gstime eciToGeodetic).
Abbreviation satelliteData := (satelliteData SatRec twoline2satrec).
Abbreviation lastWrite := (lastWrite SatRec propagate gstime eciToGeodetic).
Abbreviation visualPosition := (visualPosition eciToGeodetic).

Lemma forEach_lookup time l (buffer : PositionMap) id :
  fold_left (processSatellite time) l buffer !! id
  = match lastWrite time l id with
    | Some p => Some p
    | None => buffer !! id
    end.
Proof.
  revert buffer. induction l as [|d l IH]; intros buffer; [done|].
  simpl. rewrite IH.
  destruct (lastWrite time l id) as [p|]; [done|].
  unfold Satellites.processSatellite.
  destruct (propagate (satrec d) time) as [[p v]|]; [|done].
  rewrite lookup_insert. by repeat case_decide; case_bool_decide.
Qed.

Lemma forEach_idempotent time l (buffer : PositionMap) :
  fold_left (processSatellite time) l
    (fold_left (processSatellite time) l buffer)
  = fold_left (processSatellite time) l buffer.
Proof.
  apply map_eq. intros id. rewrite !forEach_lookup.
  by destruct (lastWrite time l id).
Qed.

Lemma useFrame_buffer meshRef refs st :
  localPositionBuffer (useFrame meshRef refs st).1.1
  = if bool_decide (meshRef = true ∧ satelliteData (satellites st) ≠ [])
    then fold_left (processSatellite (currentTime st))
           (satelliteData (satellites st)) (localPositionBuffer refs)
    else localPositionBuffer refs.
Proof.
  case_bool_decide as Hg.
  - by rewrite SatellitesFacts.useFrame_active.
  - by rewrite SatellitesFacts.useFrame_stopped.
Qed.

Lemma useFrame_store meshRef refs st :
  satellites (useFrame meshRef refs st).1.2 = satellites st
  ∧ currentTime (useFrame meshRef refs st).1.2 = currentTime st
  ∧ isPaused (useFrame meshRef refs st).1.2 = isPaused st.
Proof.
  destruct (decide (guardPasses SatRec twoline2satrec meshRef st)) as [Hg|Hg].
  - rewrite SatellitesFacts.useFrame_active by done. simpl.
    destruct (_ =? 0)%N; [|done]. by rewrite SatellitesFacts.flush_union.
  - by rewrite SatellitesFacts.useFrame_stopped.
Qed.

(** X6.  A frame that follows another one with the same simulated time and the
    same catalog leaves every buffered position as the first frame wrote
    it, whatever else changed in the store in between.  In particular,
    while the clock is paused the buffer is the same frame after frame,
    however many clock ticks pass between two frames. *)
Theorem frames_at_the_same_time_leave_the_buffer (meshRef : bool)
    (refs : Refs) (st : SatelliteStore) :
  let first := useFrame meshRef refs st in
  (∀ st', satellites st' = satellites st →
          currentTime st' = currentTime st →
          localPositionBuffer (useFrame meshRef first.1.1 st').1.1
          = localPositionBuffer first.1.1)
  ∧ (∀ n, isPaused st = true →
          localPositionBuffer
            (useFrame meshRef first.1.1 (TimeControls.ticks n first.1.2)).1.1
          = localPositionBuffer first.1.1).
Proof.
  intros first.
  assert (Hsame : ∀ st', satellites st' = satellites st →
            currentTime st' = currentTime st →
            localPositionBuffer (useFrame meshRef first.1.1 st').1.1
            = localPositionBuffer first.1.1).
  { intros st' Hsat Htime. unfold first.
    rewrite (useFrame_buffer meshRef _ st'), Hsat, Htime.
    case_bool_decide as Hg; [|done].
    rewrite (useFrame_buffer meshRef refs st).
    rewrite bool_decide_eq_true_2 by done.
    apply forEach_idempotent. }
  split; [exact Hsame|].
  intros n Hp.
  destruct (useFrame_store meshRef refs st) as (Hsat & Htime & Hpaused).
  assert (TimeControls.ticks n first.1.2 = first.1.2) as ->.
  { assert (Hfix : ∀ s, isPaused s = true → TimeControls.ticks n s = s).
    { induction n as [|n IH]; intros s Hs; [done|].
      simpl. unfold TimeControls.tick. rewrite Hs. simpl. by apply IH. }
    apply Hfix. unfold first. by rewrite Hpaused. }
  by apply Hsame.
Qed.

(** X7.  The sample written for a satellite lies at distance
    [|EARTH_RADIUS + height * SCALE_FACTOR|] from the centre of the scene.
    For a height of at least zero that is [EARTH_RADIUS + height / 1000]:
    the satellite is drawn on or above the surface of the Earth, and below
    the radius of any height that bounds its own.  Latitude and longitude
    are stored in degrees and the speed is not negative. *)
Theorem sample_lies_at_its_altitude (positionEci velocityEci : EciVec3)
    (gmst : R) :
  let gd := eciToGeodetic positionEci gmst in
  let p := visualPosition positionEci velocityEci gmst in
  sqrt (x p * x p + y p * y p + z p * z p)
  = Rabs (EARTH_RADIUS + height gd * SCALE_FACTOR)
  ∧ (0 <= height gd →
     sqrt (x p * x p + y p * y p + z p * z p)
     = EARTH_RADIUS + height gd / 1000
     ∧ EARTH_RADIUS <= sqrt (x p * x p + y p * y p + z p * z p)
     ∧ ∀ maxAltitude, height gd <= maxAltitude →
         sqrt (x p * x p + y p * y p + z p * z p)
         <= EARTH_RADIUS + maxAltitude * SCALE_FACTOR)
  ∧ lat p = latitude gd * 180 / PI
  ∧ lon p = longitude gd * 180 / PI
  ∧ alt p = height gd
  ∧ 0 <= velocity p.
Proof.
  intros gd p.
  assert (Hnorm : sqrt (x p * x p + y p * y p + z p * z p)
                  = Rabs (EARTH_RADIUS + height gd * SCALE_FACTOR)).
  { unfold p, Satellites.visualPosition. simpl. fold gd.
    set (r := EARTH_RADIUS + height gd * SCALE_FACTOR).
    pose proof (sin2_cos2 (latitude gd)) as Hlat.
    pose proof (sin2_cos2 (longitude gd)) as Hlon.
    unfold Rsqr in Hlat, Hlon.
    rewrite <- sqrt_Rsqr_abs. f_equal. unfold Rsqr.
    transitivity
      (r * r * (cos (latitude gd) * cos (latitude gd)
                * (sin (longitude gd) * sin (longitude gd)
                   + cos (longitude gd) * cos (longitude gd))
                + sin (latitude gd) * sin (latitude gd))); [ring|].
    rewrite Hlon, Rmult_1_r, (Rplus_comm (cos _ * cos _)), Hlat. ring. }
  split_and!; try done.
  - intros Hh.
    assert (Hr : Rabs (EARTH_RADIUS + height gd * SCALE_FACTOR)
                 = EARTH_RADIUS + height gd / 1000).
    { unfold EARTH_RADIUS, SCALE_FACTOR. rewrite Rabs_pos_eq; lra. }
    rewrite Hnorm, Hr. unfold EARTH_RADIUS, SCALE_FACTOR.
    split_and!; [done|lra|intros; lra].
  - apply sqrt_pos.
Qed.

End Frame.

(** A paused catalog of one satellite: a second frame after a selection,
    and one after seven clock ticks, leave the buffer of the first; the
    satellite, 629 km up, is drawn 0.629 units above the surface. *)
Lemma frames_at_the_same_time_witness :
  let first :=
    Examples.useFrameFlag true (Examples.refsAt 0) Scenarios.pausedOne in
  localPositionBuffer
    (Examples.useFrameFlag true first.1.1
       (setSelectedSatellite (Some "A") Scenarios.pausedOne)).1.1
  = localPositionBuffer first.1.1
  ∧ localPositionBuffer
      (Examples.useFrameFlag true first.1.1
         (TimeControls.ticks 7 first.1.2)).1.1
    = localPositionBuffer first.1.1.
Proof.
  destruct (frames_at_the_same_time_leave_the_buffer bool Examples.parseFlag
              Examples.propagateFlag (λ _, 0) Examples.geodeticFlag true
              (Examples.refsAt 0) Scenarios.pausedOne) as [H1 H2].
  split.
  - apply (H1 (setSelectedSatellite (Some "A") Scenarios.pausedOne));
      reflexivity.
  - apply (H2 7%nat). reflexivity.
Defined.

Lemma sample_altitude_witness :
  let p :=
    visualPosition Examples.geodeticFlag Examples.fixedPosition
      Examples.fixedVelocity 0 in
  sqrt (x p * x p + y p * y p + z p * z p) = EARTH_RADIUS + 629 / 1000.
Proof.
  destruct (sample_lies_at_its_altitude Examples.geodeticFlag
              Examples.fixedPosition Examples.fixedVelocity 0)
    as (_ & H & _).
  apply H. simpl. lra.
Defined.

End FrameFacts.

(** ** Antenna pointing *)

Module TrackingFacts.
Import Tracking.
#[local] Open Scope R_scope.

(** X8.  The rotation into east, north and up keeps the length of the vector:
    the range computed from the three components is the distance between
    the observer and the satellite. *)
Theorem topocentric_keeps_the_range (satEcef obsEcef : Satellites.EciVec3) :
  let '(east, north, up) := topocentric satEcef obsEcef in
  let rx := Satellites.ex satEcef - Satellites.ex obsEcef in
  let ry := Satellites.ey satEcef - Satellites.ey obsEcef in
  let rz := Satellites.ez satEcef - Satellites.ez obsEcef in
  east * east + north * north + up * up = rx * rx + ry * ry + rz * rz
  ∧ sqrt (east * east + north * north + up * up)
    = sqrt (rx * rx + ry * ry + rz * rz).
Proof.
  unfold topocentric. cbv zeta.
  set (rx := Satellites.ex satEcef - Satellites.ex obsEcef).
  set (ry := Satellites.ey satEcef - Satellites.ey obsEcef).
  set (rz := Satellites.ez satEcef - Satellites.ez obsEcef).
  pose proof (sin2_cos2 OBSERVER_lat) as Hlat.
  pose proof (sin2_cos2 OBSERVER_lon) as Hlon.
  unfold Rsqr in Hlat, Hlon.
  set (s1 := sin OBSERVER_lat) in *. set (c1 := cos OBSERVER_lat) in *.
  set (s2 := sin OBSERVER_lon) in *. set (c2 := cos OBSERVER_lon) in *.
  assert (Heq : (- s2 * rx + c2 * ry) * (- s2 * rx + c2 * ry)
                + (- s1 * c2 * rx - s1 * s2 * ry + c1 * rz)
                  * (- s1 * c2 * rx - s1 * s2 * ry + c1 * rz)
                + (c1 * c2 * rx + c1 * s2 * ry + s1 * rz)
                  * (c1 * c2 * rx + c1 * s2 * ry + s1 * rz)
                = rx * rx + ry * ry + rz * rz).
  { transitivity
      ((s1 * s1 + c1 * c1) * ((c2 * rx + s2 * ry) * (c2 * rx + s2 * ry)
                              + rz * rz)
       + (- s2 * rx + c2 * ry) * (- s2 * rx + c2 * ry)); [ring|].
    rewrite Hlat.
    transitivity ((s2 * s2 + c2 * c2) * (rx * rx + ry * ry) + rz * rz);
      [ring|].
    rewrite Hlon. ring. }
  split; [exact Heq | by rewrite Heq].
Qed.

Lemma atan2_bound y x : - PI < atan2 y x <= PI.
Proof.
  unfold atan2. pose proof PI_RGT_0.
  pose proof (atan_bound (y / x)) as Hb.
  repeat case_bool_decide; try lra.
  - assert (y / x <= 0).
    { unfold Rdiv. replace 0 with (y * 0) by ring.
      apply Rmult_le_compat_l; [done|].
      apply Rlt_le, Rinv_lt_0_compat. done. }
    assert (atan (y / x) <= 0).
    { destruct (Req_dec (y / x) 0) as [->|]; [rewrite atan_0; lra|].
      apply Rlt_le. rewrite <- atan_0. apply atan_increasing. lra. }
    lra.
  - assert (0 < y / x).
    { unfold Rdiv.
      replace (y * / x) with ((- y) * (- / x)) by ring.
      apply Rmult_lt_0_compat; [lra|].
      assert (/ x < 0) by (by apply Rinv_lt_0_compat). lra. }
    assert (0 < atan (y / x)).
    { rewrite <- atan_0. by apply atan_increasing. }
    lra.
Qed.

Lemma atan2_west y x : y < 0 → atan2 y x < 0.
Proof.
  intros Hy. unfold atan2. pose proof PI_RGT_0.
  pose proof (atan_bound (y / x)) as Hb.
  repeat case_bool_decide; try lra.
  rewrite <- atan_0. apply atan_increasing.
  unfold Rdiv. replace 0 with (y * 0) by ring.
  apply Rmult_lt_gt_compat_neg_l; [done|].
  by apply Rinv_0_lt_compat.
Qed.

Lemma round_bounds (x : R) (hi : Z) :
  0 <= x <= IZR hi → (0 <= round x <= hi)%Z.
Proof.
  intros [Hlo Hhi]. unfold round.
  destruct (base_Int_part (x + 1 / 2)) as [Hle Hgt].
  split.
  - apply Z.lt_succ_r, lt_IZR. rewrite succ_IZR. lra.
  - apply Z.lt_succ_r, lt_IZR. rewrite succ_IZR. lra.
Qed.

(** X9.  For a satellite away from the observer (a range that is not zero),
    the azimuth handed to the antenna is between 0 and 180 degrees and the
    elevation between 0 and 90; a satellite to the west of the observer
    (negative east component) is pointed at with azimuth 180.  The two
    integers of the message are in the same ranges, and without a writer
    nothing is sent. *)
Theorem pointing_stays_in_range (east north up : R) :
  0 < east * east + north * north + up * up →
  let '(azimuth, elevation) := pointing east north up in
  0 <= azimuth <= 180
  ∧ 0 <= elevation <= 90
  ∧ (east < 0 → azimuth = 180)
  ∧ sendToArduino false azimuth elevation = None
  ∧ ∃ az el : Z,
      sendToArduino true azimuth elevation = Some (az, el)
      ∧ (0 <= az <= 180)%Z ∧ (0 <= el <= 90)%Z.
Proof.
  intros _. unfold pointing. cbv zeta.
  set (raw := atan2 east north * 180 / PI).
  set (elev := asin _ * 180 / PI).
  pose proof PI_RGT_0 as Hpi.
  pose proof (atan2_bound east north) as [Hlo Hhi].
  assert (Hraw : -180 < raw <= 180).
  { unfold raw. split.
    - apply (Rmult_lt_reg_r PI); [done|]. field_simplify; lra.
    - apply (Rmult_le_reg_r PI); [done|]. field_simplify; lra. }
  assert (Haz : 0 <= Rmin 180 (if bool_decide (raw < 0) then raw + 360 else raw)
                <= 180).
  { case_bool_decide; unfold Rmin; destruct (Rle_dec _ _); lra. }
  assert (Hel : 0 <= Rmax 0 (Rmin 90 elev) <= 90).
  { unfold Rmax, Rmin. repeat destruct (Rle_dec _ _); lra. }
  split_and!; try done; try apply Haz; try apply Hel.
  - intros Hwest.
    assert (raw < 0).
    { unfold raw. pose proof (atan2_west east north Hwest).
      apply (Rmult_lt_reg_r PI); [done|]. field_simplify; lra. }
    rewrite bool_decide_eq_true_2 by done.
    unfold Rmin. destruct (Rle_dec _ _); lra.
  - eexists _, _. split; [reflexivity|].
    split; by apply round_bounds.
Qed.

Lemma sendTimes_after nows last :
  Forall (λ t, 250 < t - last) (sendTimes nows last).
Proof.
  revert last. induction nows as [|now rest IH]; intros last; simpl.
  - constructor.
  - case_bool_decide as Hnow; [|apply IH].
    constructor; [done|].
    eapply Forall_impl; [apply IH|]. simpl. intros t Ht. lra.
Qed.

(** X10.  Calls to [sendToArduino] are more than 250 ms apart: of any two
    calls, the later one comes more than 250 ms after the earlier one,
    and the first one more than 250 ms after the time in the ref.  The
    calls happen at frame times, in frame order. *)
Theorem sends_are_spaced (nows : list R) (lastArduinoSend : R) :
  sublist (sendTimes nows lastArduinoSend) nows
  ∧ (∀ t, t ∈ sendTimes nows lastArduinoSend → 250 < t - lastArduinoSend)
  ∧ (∀ i j t1 t2,
       (i < j)%nat →
       sendTimes nows lastArduinoSend !! i = Some t1 →
       sendTimes nows lastArduinoSend !! j = Some t2 →
       250 < t2 - t1).
Proof.
  split_and!.
  - revert lastArduinoSend.
    induction nows as [|now rest IH]; intros last; simpl; [constructor|].
    case_bool_decide; by constructor.
  - intros t Ht.
    by apply (proj1 (Forall_forall _ _) (sendTimes_after nows lastArduinoSend)).
  - revert lastArduinoSend.
    induction nows as [|now rest IH]; intros last i j t1 t2 Hij; simpl;
      [done|].
    case_bool_decide as Hnow; [|by apply IH].
    destruct j as [|j]; [lia|].
    destruct i as [|i]; simpl.
    + intros [= <-] Hj.
      apply (proj1 (Forall_forall _ _) (sendTimes_after rest now)).
      by eapply list_elem_of_lookup_2.
    + apply IH. lia.
Qed.

(** A satellite due west of the observer, and frames at 300, 400 and
    600 ms. *)
Lemma pointing_witness :
  (pointing (-1) 0 0).1 = 180
  ∧ ∃ az el : Z,
      sendToArduino true (pointing (-1) 0 0).1 (pointing (-1) 0 0).2
      = Some (az, el)
      ∧ (0 <= az <= 180)%Z ∧ (0 <= el <= 90)%Z.
Proof.
  pose proof (pointing_stays_in_range (-1) 0 0) as H.
  destruct (pointing (-1) 0 0) as [azimuth elevation]. simpl.
  destruct H as (_ & _ & Hwest & _ & Hsend); [lra|].
  split; [apply Hwest; lra|exact Hsend].
Defined.

Lemma sends_witness :
  sendTimes [300; 400; 600] 0 = [300; 600] ∧ 250 < 600 - 300.
Proof.
  assert (Hs : sendTimes [300; 400; 600] 0 = [300; 600]).
  { simpl.
    rewrite (bool_decide_eq_true_2 (250 < 300 - 0)) by lra.
    rewrite (bool_decide_eq_false_2 (250 < 400 - 300)) by lra.
    by rewrite (bool_decide_eq_true_2 (250 < 600 - 300)) by lra. }
  split; [exact Hs|].
  apply (proj2 (proj2 (sends_are_spaced [300; 400; 600] 0))
           0%nat 1%nat 300 600); [lia|by rewrite Hs..].
Defined.

End TrackingFacts.

(** ** The camera in its steady states *)

Module SteadyFacts.
Import Store CameraController CameraPresets.
#[local] Open Scope R_scope.











End SteadyFacts.

(** ** The effect that starts a transition, and where transitions lead *)

Module EffectFacts.
Import Store CameraController CameraPresets.
#[local] Open Scope R_scope.

Lemma effect_cases (st : SatelliteStore) (c : Controller) :
  effect true st c = withCameraState (intendedState st) c
  ∨ ∃ position target,
      effect true st c
      = startTransition true position target
          (withCameraState (intendedState st) c).
Proof.
  unfold effect, intendedState. simpl.
  destruct (closestSatelliteMode st && truthy (selectedSatellite st)
            && truthy (closestSatelliteId st)).
  - destruct (getRealtimePosition st (idOf (selectedSatellite st)))
      as [pos1|]; [|by left].
    destruct (getRealtimePosition st (idOf (closestSatelliteId st)))
      as [pos2|]; [|by left].
    right. destruct (compareView pos1 pos2) as [p t] eqn:E.
    exists p, t. unfold compareView in E. injection E as <- <-. done.
  - destruct (negb (truthy (visitedObject st))); [right; eauto|].
    case_bool_decide; [right; eauto|].
    destruct (getRealtimePosition st (idOf (visitedObject st)))
      as [satPos|]; [|by left].
    right. destruct (visitView satPos) as [p t] eqn:E.
    exists p, t. unfold visitView in E. injection E as <- <-. done.
Qed.

(** X14.  The effect does nothing without mounted controls.  With them it
    either starts a transition from the current view, with progress 0, or
    (when a position it needs is not known) only names the steady state of
    its branch.  That state is the one in which a transition settles
    exactly when compare mode is off or both the selection and the closest
    satellite are set; with compare mode on and the closest satellite not
    resolved yet, the effect heads for the visit or overview preset while
    the transition settles in the compare view. *)
Theorem effect_names_the_state_a_transition_settles_in
    (st : SatelliteStore) (c : Controller) :
  effect false st c = c
  ∧ (effect true st c = withCameraState (intendedState st) c
     ∨ ∃ position target,
         effect true st c
         = startTransition true position target
             (withCameraState (intendedState st) c)
         ∧ isTransitioning (effect true st c) = true
         ∧ transitionProgress (effect true st c) = 0
         ∧ startCameraPosition (effect true st c) = cameraPosition c
         ∧ startCameraTarget (effect true st c) = controlsTarget c)
  ∧ (intendedState st = settledState st ↔
     (closestSatelliteMode st = true →
      truthy (selectedSatellite st) = true
      ∧ truthy (closestSatelliteId st) = true))
  ∧ (closestSatelliteMode st = true →
     truthy (closestSatelliteId st) = false →
     settledState st = closest_satellite_view
     ∧ intendedState st ≠ closest_satellite_view).
Proof.
  split_and!.
  - done.
  - destruct (effect_cases st c) as [H|(p & t & H)]; [by left|].
    right. exists p, t. by rewrite H.
  - unfold intendedState, settledState.
    destruct (closestSatelliteMode st); simpl.
    + destruct (truthy (selectedSatellite st)),
        (truthy (closestSatelliteId st)); simpl; split;
        try (intros H; specialize (H eq_refl) as [? ?]; discriminate);
        try (by intros; split);
        try done;
        by repeat case_match.
    + split; [discriminate|done].
  - intros Hm Hc. unfold intendedState, settledState.
    rewrite Hm, Hc, andb_false_r. split; [done|].
    by repeat case_match.
Qed.

Lemma normalize_unit (v : Vector3) :
  vlength v ≠ 0 →
  vx (normalize v) * vx (normalize v) + vy (normalize v) * vy (normalize v)
  + vz (normalize v) * vz (normalize v) = 1.
Proof.
  intros Hl. unfold normalize. rewrite bool_decide_eq_false_2 by done.
  simpl.
  assert (Hsq : vlength v * vlength v
                = vx v * vx v + vy v * vy v + vz v * vz v).
  { unfold vlength. apply sqrt_sqrt. nra. }
  replace (vx v / vlength v * (vx v / vlength v)
           + vy v / vlength v * (vy v / vlength v)
           + vz v / vlength v * (vz v / vlength v))
    with ((vx v * vx v + vy v * vy v + vz v * vz v)
          / (vlength v * vlength v)) by (by field).
  rewrite <- Hsq. by field.
Qed.

Lemma sqrt_between (lo hi s : R) :
  0 <= lo → 0 <= hi → lo * lo <= s <= hi * hi → lo <= sqrt s <= hi.
Proof.
  intros Hlo Hhi [H1 H2]. split.
  - rewrite <- (sqrt_square lo) by done. by apply sqrt_le_1_alt.
  - rewrite <- (sqrt_square hi) by done. by apply sqrt_le_1_alt.
Qed.

(** X15.  The overview and Earth presets lie within the zoom limits of their
    states.  The view that a visit heads for is between 2.5 and 2.6 units
    from the satellite (for a satellite away from the centre of the
    scene): inside the limits of the visit and inside the band in which
    the camera is then left alone.  The compare view is at
    [0.7 * max (2 * separation, 15)] from the midpoint of the pair (for a
    midpoint away from the centre): above the lower limit, and within the
    upper one as long as the pair is at most 250/7 apart. *)
Theorem transition_targets_and_zoom_limits :
  (getMinDistance overview
   <= distanceTo overviewPosition overviewTarget
   <= getMaxDistance overview)
  ∧ (getMinDistance visiting_earth
     <= distanceTo visitingEarthPosition visitingEarthTarget
     <= getMaxDistance visiting_earth)
  ∧ (∀ satPos, vlength (ofPosition satPos) ≠ 0 →
       let '(cameraPos, satVector) := visitView satPos in
       satVector = ofPosition satPos
       ∧ 25 / 10 <= distanceTo cameraPos satVector <= 26 / 10
       ∧ getMinDistance visiting_satellite
         <= distanceTo cameraPos satVector
         <= getMaxDistance visiting_satellite)
  ∧ (∀ pos1 pos2, vlength (midpointOf pos1 pos2) ≠ 0 →
       let '(cameraPos, midpoint) := compareView pos1 pos2 in
       midpoint = midpointOf pos1 pos2
       ∧ distanceTo cameraPos midpoint
         = 7 / 10 * Rmax (distance3 pos2 pos1 * 2) 15
       ∧ getMinDistance closest_satellite_view
         <= distanceTo cameraPos midpoint
       ∧ (distance3 pos2 pos1 <= 250 / 7 →
          distanceTo cameraPos midpoint
          <= getMaxDistance closest_satellite_view)).
Proof.
  split; [|split; [|split]].
  - unfold distanceTo, overviewPosition, overviewTarget. simpl.
    apply sqrt_between; lra.
  - unfold distanceTo, visitingEarthPosition, visitingEarthTarget,
      getMinDistance, getMaxDistance. simpl.
    unfold Satellites.EARTH_RADIUS.
    apply sqrt_between; lra.
  - intros satPos Hl. unfold visitView. cbv zeta.
    set (s := ofPosition satPos) in *.
    pose proof (normalize_unit s Hl) as Hn.
    set (n := normalize s) in *. clearbody n.
    set (t0 := vec3 (- vz n) 0 (vx n)).
    assert (Ht : vx (normalize t0) * vx (normalize t0)
                 + vy (normalize t0) * vy (normalize t0)
                 + vz (normalize t0) * vz (normalize t0) <= 1
                 ∧ 0 <= vx (normalize t0) * vx (normalize t0)
                        + vy (normalize t0) * vy (normalize t0)
                        + vz (normalize t0) * vz (normalize t0)).
    { split; [|nra].
      destruct (Req_dec (vlength t0) 0) as [H0|H0].
      - unfold normalize. rewrite bool_decide_eq_true_2 by done. simpl.
        unfold vlength in H0. simpl in H0.
        apply sqrt_eq_0 in H0; [|nra]. nra.
      - rewrite normalize_unit by done. lra. }
    assert (Hdot : vx n * vx (normalize t0) + vy n * vy (normalize t0)
                   + vz n * vz (normalize t0) = 0).
    { unfold normalize. simpl.
      set (d0 := if bool_decide (vlength t0 = 0) then 1 else vlength t0).
      assert (d0 ≠ 0) by (unfold d0; case_bool_decide; [lra|done]).
      by field. }
    set (t := normalize t0) in *. clearbody t. clear t0.
    assert (Hd : 25 / 10 <= distanceTo
                   (add (add s (multiplyScalar n (25 / 10)))
                        (multiplyScalar t (5 / 10))) s <= 26 / 10).
    { unfold distanceTo, add, multiplyScalar. simpl.
      apply sqrt_between; [lra|lra|].
      match goal with
      | |- _ <= ?sum <= _ =>
          replace sum
            with (625 / 100 * (vx n * vx n + vy n * vy n + vz n * vz n)
                  + 25 / 10 * (vx n * vx t + vy n * vy t + vz n * vz t)
                  + 25 / 100 * (vx t * vx t + vy t * vy t + vz t * vz t))
            by field
      end.
      rewrite Hn, Hdot. lra. }
    unfold getMinDistance, getMaxDistance.
    split; [done|]. split; [done|]. lra.
  - intros pos1 pos2 Hl. unfold compareView. cbv zeta.
    fold (midpointOf pos1 pos2). fold (distance3 pos2 pos1).
    set (m := midpointOf pos1 pos2) in *.
    pose proof (normalize_unit m Hl) as Hn.
    set (n := normalize m) in *. clearbody n.
    remember (Rmax (distance3 pos2 pos1 * 2) 15 * (7 / 10)) as k eqn:Hkdef.
    assert (Hk : 105 / 10 <= k).
    { pose proof (Rmax_r (distance3 pos2 pos1 * 2) 15). lra. }
    assert (Hd : distanceTo (add m (multiplyScalar n k)) m = k).
    { unfold distanceTo, add, multiplyScalar. simpl.
      match goal with
      | |- sqrt ?e = _ => replace e with (k * k)
      end; [apply sqrt_square; lra|].
      transitivity ((vx n * vx n + vy n * vy n + vz n * vz n) * (k * k));
        [rewrite Hn; ring | field]. }
    rewrite Hd. unfold getMinDistance, getMaxDistance.
    split_and!; [done|lra|lra|].
    intros Hsep. rewrite Hkdef. unfold Rmax. destruct (Rle_dec _ _); lra.
Qed.

(** Compare mode just enabled for A, with the closest satellite not
    resolved yet; the view of a visit to B. *)
Lemma effect_witness :
  settledState Examples.comparingA = closest_satellite_view
  ∧ intendedState Examples.comparingA ≠ closest_satellite_view.
Proof.
  exact (proj2 (proj2 (proj2 (effect_names_the_state_a_transition_settles_in
                                Examples.comparingA Examples.overviewCamera)))
           eq_refl eq_refl).
Defined.

Lemma transition_targets_witness :
  25 / 10
  <= distanceTo (visitView (Examples.posAt 3 4 0)).1
       (visitView (Examples.posAt 3 4 0)).2
  <= 26 / 10.
Proof.
  pose proof (proj1 (proj2 (proj2 transition_targets_and_zoom_limits))
                (Examples.posAt 3 4 0)) as H.
  destruct (visitView (Examples.posAt 3 4 0)) as [cameraPos satVector].
  simpl. apply H.
  apply Rgt_not_eq, Rlt_gt. unfold vlength. apply sqrt_lt_R0. simpl. lra.
Defined.

End EffectFacts.

(** ** Orbit trail: the sample count in force and the samples *)

Module TrailSampleFacts.
Import SatelliteTrails TrailSamples.
#[local] Open Scope Q_scope.

Lemma newSegments_le_max d : (newSegments d <= MAX_TRAIL_SEGMENTS)%Z.
Proof.
  destruct (TrailFacts.region d) as [H|H1 H2|H1 H2|H].
  - by rewrite TrailFacts.newSegments_near.
  - rewrite TrailFacts.newSegments_interpolated by done.
    by apply TrailFacts.interpolated_bounds.
  - rewrite TrailFacts.newSegments_falloff by done.
    pose proof (TrailFacts.falloff_bounds d H1).
    unfold MIN_TRAIL_SEGMENTS, MAX_TRAIL_SEGMENTS in *. lia.
  - by rewrite TrailFacts.newSegments_beyond.
Qed.

Lemma useFrame_in_force active d l :
  lodSegments l = newSegments (lastDistance l) →
  lodSegments (useFrame active d l)
  = newSegments (lastDistance (useFrame active d l)).
Proof.
  intros H. unfold useFrame.
  destruct (negb active); [done|]. by destruct (Qltb _ _).
Qed.

(** X16.  From the mounting of the component on, after any sequence of frames,
    the sample count in force is the one the rule gives for the distance
    of the last recomputation, and it lies between 0 and the maximum.
    After a frame that passes the guard, that distance is less than the
    update threshold away from the camera distance of the frame. *)
Theorem sample_count_follows_the_last_recomputation
    (inputs : list (bool * Q)) :
  let l := runFrames inputs initialLod in
  lodSegments l = newSegments (lastDistance l)
  ∧ (0 <= lodSegments l <= MAX_TRAIL_SEGMENTS)%Z
  ∧ ∀ distance l0,
      Qabs (distance - lastDistance (useFrame true distance l0))
      < LOD_UPDATE_THRESHOLD.
Proof.
  intros l.
  assert (Hinv : lodSegments l = newSegments (lastDistance l)).
  { unfold l, runFrames. generalize initialLod (eq_refl : lodSegments initialLod
       = newSegments (lastDistance initialLod)).
    induction inputs as [|[active d] inputs IH]; intros l0 H0; [done|].
    simpl. apply IH. by apply useFrame_in_force. }
  split; [done|]. split.
  - rewrite Hinv. split; [apply TrailFacts.newSegments_nonneg|].
    apply newSegments_le_max.
  - intros d l0. unfold useFrame. change (negb true) with false. cbv iota.
    destruct (Qltb (Qabs (d - lastDistance l0)) LOD_UPDATE_THRESHOLD) eqn:Hc.
    + by apply TrailFacts.Qltb_lt.
    + cbn [lastDistance].
      assert (d - d == 0) as -> by ring. done.
Qed.

(** *** The loop over the samples *)

Lemma omap_length_le {A B} (f : A → option B) (l : list A) :
  (length (omap f l) <= length l)%nat.
Proof.
  induction l as [|a l IH]; simpl; [done|].
  change (list_omap A B f l) with (omap f l).
  destruct (f a); simpl; lia.
Qed.

Lemma half_succ (z : Z) : (z # 2) + 1 = (z + 2 # 2).
Proof. unfold Qplus. simpl. f_equal. lia. Qed.

Lemma half_lt (a b : Z) : Qltb (a # 2) (b # 2) = (a <? b)%Z.
Proof.
  apply eq_true_iff_eq. rewrite TrailFacts.Qltb_lt, Z.ltb_lt.
  unfold Qlt. simpl. lia.
Qed.

Lemma loopFrom_halves (fuel : nat) : ∀ (r : nat) (a b : Z),
  (a + 2 * Z.of_nat r - 2 < b <= a + 2 * Z.of_nat r)%Z →
  (r <= fuel)%nat →
  loopFrom fuel (a # 2) (b # 2)
  = map (λ k, (a + 2 * Z.of_nat k # 2)) (seq 0 r).
Proof.
  induction fuel as [|fuel IH]; intros r a b Hb Hfuel.
  - assert (r = 0%nat) as -> by lia. done.
  - simpl. rewrite half_lt.
    destruct r as [|r].
    + assert ((a <? b)%Z = false) as -> by (apply Z.ltb_ge; lia). done.
    + assert ((a <? b)%Z = true) as -> by (apply Z.ltb_lt; lia).
      rewrite half_succ, (IH r (a + 2)%Z b) by lia.
      simpl. f_equal; [f_equal; lia|].
      rewrite <- seq_shift, map_map.
      apply map_ext. intros k. f_equal. lia.
Qed.

Lemma offsets_halves (fuel : nat) (n : Z) :
  (0 <= n)%Z → (Z.to_nat n <= fuel)%nat →
  offsets fuel n
  = map (λ k, (2 * Z.of_nat k - n # 2)) (seq 0 (Z.to_nat n)).
Proof.
  intros Hn Hfuel. unfold offsets.
  assert (- (inject_Z n / 2) = (- n # 2)) as ->.
  { unfold Qdiv, Qmult, Qopp, inject_Z. simpl. by rewrite Z.mul_1_r. }
  assert (inject_Z n / 2 = (n # 2)) as ->.
  { unfold Qdiv, Qmult, inject_Z. simpl. by rewrite Z.mul_1_r. }
  rewrite (loopFrom_halves fuel (Z.to_nat n) (- n) n) by lia.
  apply map_ext. intros k. f_equal. lia.
Qed.

Lemma sampleTime_half (baseTime z : Z) :
  sampleTime baseTime (z # 2) = (baseTime + z * 60000)%Z.
Proof.
  unfold sampleTime, Qtruncate, TIME_STEP_MINUTES.
  assert (Heq : inject_Z baseTime + (z # 2) * 2 * 60 * 1000
                == inject_Z (baseTime + z * 60000)).
  { unfold Qeq, Qplus, Qmult, inject_Z. simpl. lia. }
  destruct (Qle_bool 0 _).
  - by rewrite (Qfloor_comp _ _ Heq), Qfloor_Z.
  - by rewrite (Qceiling_comp _ _ Heq), Qceiling_Z.
Qed.

Section Trail.

Variable Point : Type.
Variable sample : Z → Sample Point.

Abbreviation collect := (collect Point sample).
Abbreviation pointsOf := (pointsOf Point sample).
Abbreviation currentOf := (currentOf Point sample).
Abbreviation trailData := (trailData Point sample).

Lemma collect_without_throw baseTime indices : ∀ points current,
  Forall (λ i, sample (sampleTime baseTime i) ≠ Throws) indices →
  collect baseTime indices points current
  = Some (points ++ pointsOf baseTime indices,
          currentOf baseTime indices current).
Proof.
  induction indices as [|i indices IH]; intros points current Hok; simpl.
  - by rewrite app_nil_r.
  - apply Forall_cons in Hok as [Hi Hok].
    unfold TrailSamples.pointsOf, TrailSamples.currentOf. simpl.
    destruct (sample (sampleTime baseTime i)) as [p| |]; [| |done].
    + rewrite IH by done. by rewrite <- app_assoc.
    + by rewrite IH.
Qed.

Lemma collect_current_none baseTime indices : ∀ points,
  Forall (λ i, Qeq_bool i 0 = false) indices →
  match collect baseTime indices points None with
  | Some (_, current) => current = None
  | None => True
  end.
Proof.
  induction indices as [|i indices IH]; intros points Hnz; simpl; [done|].
  apply Forall_cons in Hnz as [Hi Hnz].
  destruct (sample (sampleTime baseTime i)) as [p| |]; [| |done].
  - rewrite Hi. by apply IH.
  - by apply IH.
Qed.

Lemma currentOf_no_zero baseTime indices current :
  Forall (λ i, Qeq_bool i 0 = false) indices →
  currentOf baseTime indices current = current.
Proof.
  revert current. induction indices as [|i indices IH]; intros current Hnz;
    [done|].
  apply Forall_cons in Hnz as [Hi Hnz].
  unfold TrailSamples.currentOf. simpl.
  rewrite Hi. destruct (sample _); by apply IH.
Qed.

Lemma pointsOf_all baseTime indices :
  (∀ t, ∃ p, sample t = At p) →
  length (pointsOf baseTime indices) = length indices.
Proof.
  intros Hall. unfold TrailSamples.pointsOf.
  induction indices as [|i indices IH]; [done|].
  simpl. destruct (Hall (sampleTime baseTime i)) as [p ->].
  simpl. f_equal. exact IH.
Qed.

Lemma half_is_zero (z : Z) : Qeq_bool (z # 2) 0 = (z =? 0)%Z.
Proof.
  apply eq_true_iff_eq. rewrite Qeq_bool_iff, Z.eqb_eq.
  unfold Qeq. simpl. lia.
Qed.

(** X17.  For a positive sample count [n] and a satellite of the catalog, the
    loop of the trail takes exactly [n] steps, at the offsets
    [k - n / 2] for [k = 0 .. n - 1], and stops by its own test.  The
    samples are two minutes apart around the simulated time.  When no
    sample throws, the trail has at most [n] points, and exactly [n] when
    every sample has a position.  The current position is reported only
    for an even [n], as the sample taken at the simulated time itself; for
    an odd [n] no offset is 0 and none is reported.  One throwing sample
    empties the result. *)
Theorem trail_samples (fuel : nat) (baseTime n : Z) :
  (0 < n)%Z → (Z.to_nat n < fuel)%nat →
  let indices := offsets fuel n in
  let result := trailData fuel true baseTime n in
  indices = map (λ k, (2 * Z.of_nat k - n # 2)) (seq 0 (Z.to_nat n))
  ∧ map (sampleTime baseTime) indices
    = map (λ k, (baseTime + (2 * Z.of_nat k - n) * 60000)%Z)
        (seq 0 (Z.to_nat n))
  ∧ (Z.odd n = true → currentPosition result = None)
  ∧ ((∀ t, sample t ≠ Throws) →
     (∀ points, trails result = [points] → (length points <= Z.to_nat n)%nat)
     ∧ (Z.even n = true →
        currentPosition result
        = match sample baseTime with At p => Some p | _ => None end))
  ∧ ((∀ t, ∃ p, sample t = At p) → (2 <= n)%Z →
     ∃ points, trails result = [points] ∧ length points = Z.to_nat n)
  ∧ ((∃ k, (k < Z.to_nat n)%nat
           ∧ sample (baseTime + (2 * Z.of_nat k - n) * 60000)%Z = Throws) →
     trails result = [] ∧ currentPosition result = None).
Proof.
  intros Hn Hfuel indices result.
  assert (Hidx : indices
                 = map (λ k, (2 * Z.of_nat k - n # 2)) (seq 0 (Z.to_nat n))).
  { apply offsets_halves; lia. }
  assert (Htimes : map (sampleTime baseTime) indices
                   = map (λ k, (baseTime + (2 * Z.of_nat k - n) * 60000)%Z)
                       (seq 0 (Z.to_nat n))).
  { rewrite Hidx, map_map. apply map_ext. intros k. apply sampleTime_half. }
  assert (Hres : result
            = match collect baseTime indices [] None with
              | Some (points, current) =>
                  {| trails := if (1 <? length points)%nat then [points]
                               else [];
                     currentPosition := current |}
              | None => {| trails := []; currentPosition := None |}
              end).
  { unfold result, TrailSamples.trailData.
    assert ((n =? 0)%Z = false) as -> by (apply Z.eqb_neq; lia). done. }
  split; [done|]. split; [done|]. split; [|split; [|split]].
  - intros Hodd.
    pose proof (collect_current_none baseTime indices []) as Hc.
    rewrite Hres. destruct (collect baseTime indices [] None) as [[pts cur]|];
      [|done].
    simpl. apply Hc. rewrite Hidx. apply Forall_forall.
    intros i (k & <- & _)%list_elem_of_In%in_map_iff. rewrite half_is_zero.
    apply Z.eqb_neq. intros Hk.
    rewrite <- Z.negb_even in Hodd.
    assert (n = 2 * Z.of_nat k)%Z as Hn2 by lia.
    rewrite Hn2, Z.even_mul in Hodd. done.
  - intros Hok.
    rewrite Hres, collect_without_throw
      by (apply Forall_forall; intros; apply Hok).
    simpl. split.
    + intros points Hp. destruct (1 <? _)%nat; [|done].
      injection Hp as <-. unfold TrailSamples.pointsOf.
      etransitivity; [apply omap_length_le|].
      rewrite Hidx, length_map, length_seq. done.
    + intros Heven.
      apply Z.even_spec in Heven as [h Hh].
      assert (Hsplit : seq 0 (Z.to_nat n)
                = seq 0 (Z.to_nat h) ++ [Z.to_nat h]
                  ++ seq (S (Z.to_nat h)) (Z.to_nat n - S (Z.to_nat h))).
      { replace (Z.to_nat n)
          with (Z.to_nat h + S (Z.to_nat n - S (Z.to_nat h)))%nat at 1 by lia.
        rewrite seq_app. f_equal. }
      rewrite Hidx, Hsplit, !map_app. unfold TrailSamples.currentOf.
      rewrite !fold_left_app. simpl.
      fold (currentOf baseTime
              (map (λ k, 2 * Z.of_nat k - n # 2) (seq 0 (Z.to_nat h))) None).
      rewrite currentOf_no_zero.
      2:{ apply Forall_forall. intros i (k & <- & Hk%in_seq)%list_elem_of_In%in_map_iff.
          rewrite half_is_zero. apply Z.eqb_neq. lia. }
      rewrite sampleTime_half, half_is_zero.
      assert ((2 * Z.of_nat (Z.to_nat h) - n =? 0)%Z = true) as ->
        by (apply Z.eqb_eq; lia).
      replace (baseTime + (2 * Z.of_nat (Z.to_nat h) - n) * 60000)%Z
        with baseTime by lia.
      match goal with
      | |- fold_left ?f ?l ?c = _ =>
          change (fold_left f l c) with (currentOf baseTime l c)
      end.
      rewrite currentOf_no_zero; [by destruct (sample baseTime)|].
      apply Forall_forall. intros i (k & <- & Hk%in_seq)%list_elem_of_In%in_map_iff.
      rewrite half_is_zero. apply Z.eqb_neq. lia.
  - intros Hall Hn2.
    rewrite Hres, collect_without_throw.
    2:{ apply Forall_forall. intros i _.
        destruct (Hall (sampleTime baseTime i)) as [p ->]. done. }
    simpl.
    assert (Hlen : length (pointsOf baseTime indices) = Z.to_nat n).
    { rewrite pointsOf_all by done.
      by rewrite Hidx, length_map, length_seq. }
    exists (pointsOf baseTime indices). split; [|done].
    rewrite Hlen.
    assert ((1 <? Z.to_nat n)%nat = true) as -> by (apply Nat.ltb_lt; lia).
    done.
  - intros (k & Hk & Hthrow).
    assert (collect baseTime indices [] None = None) as Hnone.
    { rewrite Hidx. generalize (@nil Point) (@None Point).
      assert (Hin : k ∈ seq 0 (Z.to_nat n))
        by (apply list_elem_of_In, in_seq; lia).
      revert Hin. generalize (seq 0 (Z.to_nat n)) as ks.
      induction ks as [|k' ks IH]; intros Hin pts cur.
      - by apply elem_of_nil in Hin.
      - simpl. rewrite sampleTime_half.
        apply elem_of_cons in Hin as [<-|Hin]; [by rewrite Hthrow|].
        destruct (sample (baseTime + (2 * Z.of_nat k' - n) * 60000)%Z);
          [by apply IH|by apply IH|done]. }
    by rewrite Hres, Hnone.
Qed.

End Trail.

(** Four samples around time 0 of a propagation that always has a
    position. *)
Lemma trail_witness :
  let result := trailData Z Scenarios.sampleAll 10 true 0 4 in
  (∃ points, trails result = [points] ∧ length points = 4%nat)
  ∧ currentPosition result = Some 0%Z.
Proof.
  destruct (trail_samples Z Scenarios.sampleAll 10 0 4)
    as (_ & _ & _ & Hno & Hall & _); [lia|simpl; lia|].
  split.
  - apply Hall; [intros t; by exists t|lia].
  - apply Hno; [intros t; discriminate|reflexivity].
Defined.

End TrailSampleFacts.

(** ** Model detail by distance *)

Module LodFacts.
Import SatelliteLOD.
#[local] Open Scope Q_scope.

(** X18.  The model is detailed below 10 units from the camera, medium from 10
    to below 25, simple from 25 to below 40 and a point from 40 on; it
    never gets finer as the distance grows. *)
Theorem model_detail_by_distance :
  (∀ d, (lodLevel d = detailed ↔ d < 10)
        ∧ (lodLevel d = medium ↔ 10 <= d ∧ d < 25)
        ∧ (lodLevel d = simple ↔ 25 <= d ∧ d < 40)
        ∧ (lodLevel d = point ↔ 40 <= d))
  ∧ (∀ d1 d2, d1 <= d2 →
       (coarseness (lodLevel d1) <= coarseness (lodLevel d2))%nat).
Proof.
  assert (Hcases : ∀ d,
            (d < 10 ∧ lodLevel d = detailed)
            ∨ (10 <= d ∧ d < 25 ∧ lodLevel d = medium)
            ∨ (25 <= d ∧ d < 40 ∧ lodLevel d = simple)
            ∨ (40 <= d ∧ lodLevel d = point)).
  { intros d. unfold lodLevel.
    destruct (SatelliteTrails.Qltb d 10) eqn:H10.
    { apply TrailFacts.Qltb_lt in H10. by left. }
    apply TrailFacts.Qltb_ge in H10.
    destruct (SatelliteTrails.Qltb d 25) eqn:H25.
    { apply TrailFacts.Qltb_lt in H25. right; left. done. }
    apply TrailFacts.Qltb_ge in H25.
    destruct (SatelliteTrails.Qltb d 40) eqn:H40.
    { apply TrailFacts.Qltb_lt in H40. right; right; left. done. }
    apply TrailFacts.Qltb_ge in H40. right; right; right. done. }
  split.
  - intros d.
    destruct (Hcases d) as [[H ->]|[(H1 & H2 & ->)|[(H1 & H2 & ->)|[H ->]]]];
      repeat split; try done; try discriminate; intros; try lra;
      try (destruct H0; lra).
  - intros d1 d2 Hle.
    destruct (Hcases d1) as [[A ->]|[(A1 & A2 & ->)|[(A1 & A2 & ->)|[A ->]]]];
    destruct (Hcases d2) as [[B ->]|[(B1 & B2 & ->)|[(B1 & B2 & ->)|[B ->]]]];
      simpl; try lia; lra.
Qed.

(** From 5 units to 30 the model does not get finer. *)
Lemma model_detail_witness :
  (coarseness (lodLevel 5) <= coarseness (lodLevel 30))%nat.
Proof.
  apply (proj2 model_detail_by_distance 5 30).
  unfold Qle. simpl. lia.
Defined.

End LodFacts.

(** ** Motion trails *)

Module MotionTrailFacts.
Import Store MotionTrails.
#[local] Open Scope Q_scope.

Lemma filter_snoc {A} (f : A → bool) (l : list A) (a : A) :
  List.filter f (l ++ [a])
  = List.filter f l ++ (if f a then [a] else []).
Proof.
  induction l as [|b l IH]; simpl; [done|].
  rewrite IH. by destruct (f b).
Qed.

Lemma last_drop {A} (l : list A) (n : nat) :
  (n < length l)%nat → last (drop n l) = last l.
Proof.
  revert n. induction l as [|a l IH]; intros n Hn; simpl in *; [lia|].
  destruct n as [|n]; [done|]. simpl.
  rewrite IH by lia. destruct l; [simpl in *; lia|done].
Qed.

Lemma updateTrail_spec (now : Q) (p : SatellitePosition)
    (trail : list TrailPoint) :
  let newPoint :=
    {| position := CameraController.ofPosition p; timestamp := now |} in
  let result := updateTrail now p trail in
  (length result <= MAX_TRAIL_POINTS)%nat
  ∧ last result = Some newPoint
  ∧ Forall (λ point, now - TRAIL_LIFETIME < timestamp point) result
  ∧ sublist result (trail ++ [newPoint]).
Proof.
  intros newPoint result. unfold result, updateTrail. fold newPoint.
  set (fresh := λ point : TrailPoint,
         SatelliteTrails.Qltb (now - TRAIL_LIFETIME) (timestamp point)).
  set (valid := List.filter fresh (trail ++ [newPoint])).
  assert (Hnew : fresh newPoint = true).
  { unfold fresh. apply TrailFacts.Qltb_lt. simpl.
    unfold TRAIL_LIFETIME. lra. }
  assert (Hlast : last valid = Some newPoint).
  { unfold valid. rewrite filter_snoc, Hnew. apply last_snoc. }
  assert (Hfresh : Forall (λ point, now - TRAIL_LIFETIME < timestamp point)
                     valid).
  { apply Forall_forall. intros point Hin.
    apply list_elem_of_In, filter_In in Hin as [_ Hin].
    by apply TrailFacts.Qltb_lt. }
  assert (Hsub : sublist valid (trail ++ [newPoint]))
    by apply FilterFacts.filter_sublist.
  destruct (MAX_TRAIL_POINTS <? length valid)%nat eqn:Hmax.
  - apply Nat.ltb_lt in Hmax. split_and!.
    + rewrite length_drop. lia.
    + rewrite last_drop by (unfold MAX_TRAIL_POINTS in *; lia). done.
    + by apply Forall_drop.
    + etransitivity; [apply sublist_drop|done].
  - apply Nat.ltb_ge in Hmax. done.
Qed.

Lemma satellitesWithTrails_NoDup st : NoDup (satellitesWithTrails st).
Proof.
  unfold satellitesWithTrails.
  destruct (truthy (selectedSatellite st)), (truthy (visitedObject st)),
    (bool_decide (visitedObject st = Some "earth")); simpl;
    try apply NoDup_nil_2; try apply NoDup_singleton.
  case_bool_decide as Hin; simpl; [apply NoDup_singleton|].
  apply NoDup_cons. split; [|apply NoDup_singleton].
  intros Hmem. apply Hin.
  apply list_elem_of_singleton in Hmem. rewrite Hmem.
  apply list_elem_of_here.
Qed.

Lemma track_lookup now st (l : list string) : ∀ (trailData : Trails) k,
  NoDup l →
  fold_left (trackSatellite now st) l trailData !! k
  = if bool_decide (k ∈ l)
    then match getRealtimePosition st k with
         | Some p => Some (updateTrail now p (default [] (trailData !! k)))
         | None => trailData !! k
         end
    else trailData !! k.
Proof.
  induction l as [|a l IH]; intros trailData k Hnd; simpl; [done|].
  apply NoDup_cons in Hnd as [Ha Hnd].
  rewrite IH by done.
  destruct (decide (k = a)) as [->|Hne].
  - rewrite (bool_decide_eq_false_2 (a ∈ l)) by done.
    rewrite (bool_decide_eq_true_2 (a ∈ a :: l)) by apply list_elem_of_here.
    unfold trackSatellite.
    destruct (getRealtimePosition st a); [|done]. apply lookup_insert_eq.
  - assert (Hk : trackSatellite now st trailData a !! k = trailData !! k).
    { unfold trackSatellite. destruct (getRealtimePosition st a); [|done].
      by apply lookup_insert_ne. }
    rewrite Hk.
    destruct (decide (k ∈ l)) as [Hin|Hnin].
    + rewrite !bool_decide_eq_true_2; [done| |done].
      by apply list_elem_of_further.
    + rewrite !bool_decide_eq_false_2; [done| |done].
      intros [?|?]%elem_of_cons; done.
Qed.

(** X19.  After a frame, trails exist only for the selected satellite and the
    visited one (the Earth apart).  The trail of each of them whose
    position is known ends with the new point, has at most a hundred
    points, all younger than the lifetime, and is otherwise what is left
    of the old trail, in order; a satellite whose position is not known
    keeps its trail.  A point younger than the lifetime and not from the
    future is drawn with an opacity above 0 and at most 1.  Without the
    group mounted the frame changes nothing. *)
Theorem trails_after_a_frame (now : Q) (st : SatelliteStore)
    (trailData : Trails) :
  let after := useFrame true now st trailData in
  (∀ k, is_Some (after !! k) → k ∈ satellitesWithTrails st)
  ∧ (∀ k p, k ∈ satellitesWithTrails st →
       getRealtimePosition st k = Some p →
       ∃ trail,
         after !! k = Some trail
         ∧ (length trail <= MAX_TRAIL_POINTS)%nat
         ∧ last trail
           = Some {| position := CameraController.ofPosition p;
                     timestamp := now |}
         ∧ Forall (λ point, now - TRAIL_LIFETIME < timestamp point) trail
         ∧ sublist trail
             (default [] (trailData !! k)
              ++ [{| position := CameraController.ofPosition p;
                     timestamp := now |}]))
  ∧ (∀ k, k ∈ satellitesWithTrails st →
       getRealtimePosition st k = None →
       after !! k = trailData !! k)
  ∧ (∀ point, now - TRAIL_LIFETIME < timestamp point →
       timestamp point <= now →
       0 < opacity now point ∧ opacity now point <= 1)
  ∧ useFrame false now st trailData = trailData.
Proof.
  intros after.
  pose proof (satellitesWithTrails_NoDup st) as Hnd.
  assert (Hlook : ∀ k, k ∈ satellitesWithTrails st →
            after !! k
            = match getRealtimePosition st k with
              | Some p =>
                  Some (updateTrail now p (default [] (trailData !! k)))
              | None => trailData !! k
              end).
  { intros k Hk. unfold after, useFrame. simpl.
    pose proof (track_lookup now st _ trailData k Hnd) as Hf.
    rewrite bool_decide_eq_true_2 in Hf by done.
    destruct (fold_left _ _ _ !! k) as [t|] eqn:Ht.
    - rewrite <- Hf. apply map_lookup_filter_Some. done.
    - rewrite <- Hf. apply map_lookup_filter_None. by left. }
  split_and!.
  - intros k [t Ht]. unfold after, useFrame in Ht. simpl in Ht.
    by apply map_lookup_filter_Some in Ht as [_ Hk].
  - intros k p Hk Hp. rewrite (Hlook k Hk), Hp.
    eexists. split; [done|].
    apply (updateTrail_spec now p (default [] (trailData !! k))).
  - intros k Hk Hp. by rewrite (Hlook k Hk), Hp.
  - intros point Hyoung Hpast. unfold opacity, TRAIL_LIFETIME in *.
    split.
    + assert (Heq : 1 - (now - timestamp point) / 10000
                    == (timestamp point - (now - 10000)) * (1 # 10000))
        by field.
      rewrite Heq. apply Qmult_lt_0_compat; [lra|done].
    + assert (Heq : 1 - (now - timestamp point) / 10000
                    == 1 - (now - timestamp point) * (1 # 10000)) by field.
      rewrite Heq.
      assert (0 <= (now - timestamp point) * (1 # 10000)).
      { apply Qmult_le_0_compat; [lra|done]. }
      lra.
  - done.
Qed.

(** The first frame with A selected and no trail yet. *)
Lemma motion_trails_witness :
  ∃ trail,
    useFrame true 0 Examples.selectedA ∅ !! "A" = Some trail
    ∧ (length trail <= MAX_TRAIL_POINTS)%nat
    ∧ last trail
      = Some {| position :=
                  CameraController.ofPosition (Examples.posAt 0 0 0);
                timestamp := 0 |}.
Proof.
  destruct (trails_after_a_frame 0 Examples.selectedA ∅) as (_ & H & _).
  destruct (H "A" (Examples.posAt 0 0 0)) as (trail & ? & ? & ? & _).
  - by apply (bool_decide_unpack _).
  - reflexivity.
  - by exists trail.
Defined.

End MotionTrailFacts.

(** ** The catalog on the server *)

Module TleFacts.
Import Store TleService.

Lemma mapSet_keys k v (m : Cache) :
  map fst (mapSet k v m)
  = if bool_decide (k ∈ map fst m) then map fst m else map fst m ++ [k].
Proof.
  induction m as [|[k' v'] m IH].
  - done.
  - cbn [mapSet]. destruct (String.eqb_spec k' k) as [->|Hne].
    + rewrite bool_decide_eq_true_2; [done|]. apply list_elem_of_here.
    + cbn [map fst]. rewrite IH. case_bool_decide as Hin.
      * rewrite bool_decide_eq_true_2; [done|].
        by apply list_elem_of_further.
      * rewrite bool_decide_eq_false_2; [done|].
        intros [?|?]%elem_of_cons; [congruence|done].
Qed.

Lemma mapSet_values k v (m : Cache) kv :
  kv ∈ mapSet k v m → kv = (k, v) ∨ kv ∈ m.
Proof.
  induction m as [|[k' v'] m IH]; simpl.
  - intros ->%list_elem_of_singleton. by left.
  - destruct (String.eqb k' k).
    + intros [->|Hin]%elem_of_cons; [by left|].
      right. by apply list_elem_of_further.
    + intros [->|Hin]%elem_of_cons; [right; apply list_elem_of_here|].
      destruct (IH Hin) as [->|?]; [by left|].
      right. by apply list_elem_of_further.
Qed.

Lemma mapSet_keyed k v (m : Cache) :
  noradId v = k → keyed m → keyed (mapSet k v m).
Proof.
  intros Hk [Hnd Hall]. split.
  - rewrite mapSet_keys. case_bool_decide as Hin; [done|].
    apply NoDup_app. split_and!; [done| |apply NoDup_singleton].
    intros x Hx ->%list_elem_of_singleton. done.
  - apply Forall_forall. intros kv [->|Hin]%mapSet_values; [done|].
    by apply (proj1 (Forall_forall _ _) Hall).
Qed.

Lemma mapSet_prefix k v (m : Cache) :
  map fst m `prefix_of` map fst (mapSet k v m).
Proof.
  rewrite mapSet_keys. case_bool_decide; [done|]. by apply prefix_app_r.
Qed.

Lemma sample_cache_keyed now : keyed (tleCache (initializeWithSampleData now)).
Proof.
  split.
  - by apply (bool_decide_unpack _).
  - simpl. repeat (apply Forall_cons; split; [reflexivity|]).
    apply Forall_nil_2.
Qed.

Section Parse.

Variable trim : string → string.
Variable guessOperator : string → string.
Variable extractLaunchDate : string → string.

Abbreviation parseLines := (parseLines trim guessOperator extractLaunchDate).
Abbreviation parseTLEData :=
  (parseTLEData trim guessOperator extractLaunchDate).
Abbreviation fetchLatestTLEs :=
  (fetchLatestTLEs trim guessOperator extractLaunchDate).

Lemma parseLines_keeps (R : Cache → Cache → Prop) :
  (∀ c, R c c) →
  (∀ c1 c2 c3, R c1 c2 → R c2 c3 → R c1 c3) →
  (∀ k v c, noradId v = k → R c (mapSet k v c)) →
  ∀ lines cat cache, R cache (parseLines lines cat cache).
Proof.
  intros Hrefl Htrans Hset lines cat.
  assert (H : ∀ n lines, (length lines <= n)%nat →
              ∀ cache, R cache (parseLines lines cat cache)).
  { induction n as [|n IH]; intros ls Hlen cache.
    - destruct ls; [apply Hrefl|simpl in Hlen; lia].
    - destruct ls as [|name [|line1 [|line2 rest]]]; try apply Hrefl.
      simpl. eapply Htrans; [|apply IH; simpl in Hlen; lia].
      destruct (_ && _); [by apply Hset|apply Hrefl]. }
  intros cache. by apply (H (length lines)).
Qed.

Lemma parseLines_keyed lines cat cache :
  keyed cache → keyed (parseLines lines cat cache).
Proof.
  intros Hk.
  apply (parseLines_keeps (λ c1 c2, keyed c1 → keyed c2)); try done.
  - intros c1 c2 c3 H12 H23 H1. auto.
  - intros k v c Hv Hc. by apply mapSet_keyed.
Qed.

Lemma parseLines_prefix lines cat cache :
  map fst cache `prefix_of` map fst (parseLines lines cat cache).
Proof.
  apply (parseLines_keeps (λ c1 c2, map fst c1 `prefix_of` map fst c2)).
  - done.
  - intros c1 c2 c3 H12 H23. by etransitivity.
  - intros k v c _. apply mapSet_prefix.
Qed.

Lemma fetch_cache_keeps (R : Cache → Cache → Prop) :
  (∀ c, R c c) →
  (∀ c1 c2 c3, R c1 c2 → R c2 c3 → R c1 c3) →
  (∀ k v c, noradId v = k → R c (mapSet k v c)) →
  ∀ responses now svc,
    R (tleCache svc) (tleCache (fetchLatestTLEs responses now svc)).
Proof.
  intros Hrefl Htrans Hset responses now svc.
  unfold TleService.fetchLatestTLEs.
  destruct (updateInProgress svc); [apply Hrefl|]. simpl.
  assert (H : ∀ work c0 c, R c0 c →
    R c0 (fold_left
            (λ cache '(cat, response),
               match response with
               | Some data => parseTLEData data cat cache
               | None => cache
               end) work c)).
  { induction work as [|[cat [data|]] work IH]; intros c0 c Hc0;
      simpl; [done| |by apply IH].
    apply IH. eapply Htrans; [exact Hc0|].
    unfold TleService.parseTLEData. by apply parseLines_keeps. }
  apply H, Hrefl.
Qed.

Lemma refreshes_keeps (R : Cache → Cache → Prop) :
  (∀ c, R c c) →
  (∀ c1 c2 c3, R c1 c2 → R c2 c3 → R c1 c3) →
  (∀ k v c, noradId v = k → R c (mapSet k v c)) →
  ∀ rounds svc,
    R (tleCache svc)
      (tleCache (refreshes trim guessOperator extractLaunchDate rounds svc)).
Proof.
  intros Hrefl Htrans Hset rounds.
  induction rounds as [|[responses now] rounds IH]; intros svc; simpl.
  - apply Hrefl.
  - eapply Htrans; [|apply IH]. by apply fetch_cache_keeps.
Qed.

Lemma keyed_ids (c : Cache) : keyed c → map noradId (map snd c) = map fst c.
Proof.
  intros [_ Hall]. induction Hall as [|[k v] c Hkv Hall IH]; simpl in *;
    [done|]. by rewrite Hkv, IH.
Qed.

Lemma keyed_get (c : Cache) k v :
  keyed c → (k, v) ∈ c → mapGet k c = Some v.
Proof.
  intros [Hnd _]. induction c as [|[k' v'] c IH]; simpl.
  - by intros ?%elem_of_nil.
  - simpl in Hnd. apply NoDup_cons in Hnd as [Hk' Hnd].
    intros [[= -> ->]|Hin]%elem_of_cons.
    + by rewrite String.eqb_refl.
    + destruct (String.eqb_spec k' k) as [->|_]; [|by apply IH].
      destruct Hk'. apply list_elem_of_fmap. by exists (k, v).
Qed.

(** X20.  Whatever the refreshes of the catalog bring, the service keeps
    one entry for each id: the list the client loads has no id twice,
    every listed satellite is the one [getSatellite] returns for its id,
    and the five built-in satellites stay at the head of the list, in
    their order. *)
Theorem catalog_keeps_one_entry_per_id
    (rounds : list (list (option string) * Z)) (now : Z) :
  let svc :=
    refreshes trim guessOperator extractLaunchDate rounds
      (initializeWithSampleData now) in
  NoDup (map noradId (loadedCatalog svc))
  ∧ (∀ sat, sat ∈ getAllSatellites svc →
       getSatellite (noradId sat) svc = Some sat)
  ∧ map noradId sampleSatellites `prefix_of`
      map noradId (getAllSatellites svc).
Proof.
  intros svc.
  assert (Hk : keyed (tleCache svc)).
  { apply (refreshes_keeps (λ c1 c2, keyed c1 → keyed c2)); try done.
    - intros c1 c2 c3 H12 H23 H1. auto.
    - intros k v c Hv Hc. by apply mapSet_keyed.
    - apply sample_cache_keyed. }
  split; [|split].
  - unfold loadedCatalog, getAllSatellites.
    assert (Hnd : NoDup (map noradId (map snd (tleCache svc)))).
    { rewrite keyed_ids by done. apply Hk. }
    rewrite <- (take_drop 2000 (map snd (tleCache svc))) in Hnd.
    rewrite map_app in Hnd. by apply NoDup_app in Hnd as [? _].
  - intros sat [[k v] [-> Hin]]%list_elem_of_fmap. simpl.
    unfold getSatellite.
    destruct Hk as [Hnd Hall].
    pose proof (proj1 (Forall_forall _ _) Hall _ Hin) as Hkv.
    simpl in Hkv. rewrite Hkv. by apply keyed_get.
  - unfold getAllSatellites. rewrite keyed_ids by done.
    change (map noradId sampleSatellites)
      with (map fst (tleCache (initializeWithSampleData now))).
    apply (refreshes_keeps (λ c1 c2, map fst c1 `prefix_of` map fst c2)).
    + done.
    + intros c1 c2 c3 H12 H23. by etransitivity.
    + intros k v c _. apply mapSet_prefix.
Qed.

(** X21.  A refresh whose four requests all fail, or one asked for while
    another is in progress, leaves the service as it was; one in which a
    request succeeds records its time, and drops no satellite. *)
Theorem refresh_by_outcome (responses : list (option string)) (now : Z)
    (svc : Service) :
  let svc' :=
    fetchLatestTLEs responses now svc in
  length responses = 4%nat →
  (updateInProgress svc = true ∨ Forall (λ r, r = None) responses →
     svc' = svc)
  ∧ (updateInProgress svc = false → Exists (λ r, is_Some r) responses →
       lastUpdate svc' = Some now
       ∧ updateInProgress svc' = false
       ∧ (getCacheSize svc <= getCacheSize svc')%nat
       ∧ ∀ id, is_Some (getSatellite id svc) →
               is_Some (getSatellite id svc')).
Proof.
  intros svc' Hlen.
  destruct responses as [|r1 [|r2 [|r3 [|r4 [|]]]]]; try discriminate.
  split.
  - intros [Hbusy|Hnone].
    + subst svc'. unfold TleService.fetchLatestTLEs. by rewrite Hbusy.
    + apply Forall_cons in Hnone as [-> Hnone].
      apply Forall_cons in Hnone as [-> Hnone].
      apply Forall_cons in Hnone as [-> Hnone].
      apply Forall_cons in Hnone as [-> Hnone].
      subst svc'. unfold TleService.fetchLatestTLEs.
      destruct svc as [c u b]; simpl. by destruct b.
  - intros Hidle Hsome.
    assert (Hmem : ∀ id, is_Some (mapGet id (tleCache svc)) →
                         is_Some (mapGet id (tleCache svc'))
                         ).
    { apply (fetch_cache_keeps
          (λ c1 c2, ∀ id, is_Some (mapGet id c1) → is_Some (mapGet id c2))).
      - done.
      - intros c1 c2 c3 H12 H23 id H1. auto.
      - intros k v c _ id. induction c as [|[k' v'] c IH]; simpl.
        + by intros [? [=]].
        + destruct (String.eqb_spec k' k) as [->|Hne]; simpl.
          * destruct (String.eqb k id); [by eexists|done].
          * destruct (String.eqb k' id); [by eexists|done]. }
    assert (Hsize : (length (tleCache svc) <= length (tleCache svc'))%nat).
    { apply (fetch_cache_keeps (λ c1 c2, (length c1 <= length c2)%nat)).
      - done.
      - intros c1 c2 c3 H12 H23. lia.
      - intros k v c _. induction c as [|[k' v'] c IH]; simpl; [lia|].
        destruct (String.eqb k' k); simpl; lia. }
    split_and!; [| |exact Hsize|exact Hmem].
    + subst svc'. unfold TleService.fetchLatestTLEs. rewrite Hidle.
      cbn [lastUpdate].
      replace (existsb _ _) with true; [done|].
      symmetry. simpl.
      apply Exists_cons in Hsome as [H1|Hsome];
        [by rewrite (bool_decide_eq_true_2 _ H1)|].
      apply Exists_cons in Hsome as [H2|Hsome];
        [rewrite (bool_decide_eq_true_2 _ H2); by rewrite orb_true_r|].
      apply Exists_cons in Hsome as [H3|Hsome];
        [rewrite (bool_decide_eq_true_2 _ H3); by rewrite !orb_true_r|].
      apply Exists_cons in Hsome as [H4|Hsome];
        [rewrite (bool_decide_eq_true_2 _ H4); by rewrite !orb_true_r|].
      by apply Exists_nil in Hsome.
    + subst svc'. unfold TleService.fetchLatestTLEs. by rewrite Hidle.
Qed.

End Parse.

(** A refresh whose first request answers with one new record, and one
    whose requests all fail. *)
Lemma catalog_witness :
  getSatellite "99999" Scenarios.refreshed = Some Scenarios.newStation.
Proof.
  apply (proj1 (proj2 (catalog_keeps_one_entry_per_id Scenarios.asciiTrim
                         (λ _, "Unknown") (λ _, "Unknown")
                         [([Some Scenarios.stationsText; None; None; None],
                           1%Z)] 0))
           Scenarios.newStation).
  apply list_elem_of_lookup. by exists 5%nat.
Defined.

Lemma refresh_witness :
  fetchLatestTLEs Scenarios.asciiTrim (λ _, "Unknown") (λ _, "Unknown")
    [None; None; None; None] 9 (initializeWithSampleData 0)
  = initializeWithSampleData 0.
Proof.
  apply (proj1 (refresh_by_outcome Scenarios.asciiTrim (λ _, "Unknown")
                  (λ _, "Unknown") [None; None; None; None] 9
                  (initializeWithSampleData 0) eq_refl)).
  right. repeat constructor.
Defined.

End TleFacts.
